(** * Shallow embedding of the transcript-acquisition routes of youtube-analyzer

    Sources:
    - src/src/app/api/analyze/route.ts: two successive versions of the
      [/api/analyze] route are stored in this file.  Lines 1-156 hold the
      version whose fallback is AssemblyAI audio transcription (module
      [AnalyzeAssembly] below); lines 158-368 hold the version whose
      fallback is yt-dlp subtitle download (module [AnalyzeYtDlp]).
    - src/src/app/api/transcribe-audio/route.ts: the audio upload route
      (module [TranscribeAudio]).

    Strings are Rocq [string]s; each [ascii] stands for one UTF-16 code
    unit below 256 (Latin-1), so [String.length] is JavaScript's
    [.length] on such strings.  External services (caption scraper, yt-dlp,
    AssemblyAI, OpenRouter) are oracles of an environment record; their
    calls are logged in the world so that theorems can talk about which
    strategy was attempted and which text was forwarded to the model. *)

From Stdlib Require Import String Ascii List Bool Arith Lia NArith.
Import ListNotations.
Open Scope string_scope.

(** ** Character classes of JavaScript regular expressions and [trim] *)

(** [\s] and the characters removed by [String.prototype.trim]
    (restricted to code units below 256): TAB, LF, VT, FF, CR, SPACE, NBSP. *)
Definition is_ws (c : ascii) : bool :=
  let n := nat_of_ascii c in
  (((9 <=? n) && (n <=? 13)) || (n =? 32) || (n =? 160))%nat.

(** Line terminators, which [.] does not match: LF and CR. *)
Definition is_line_term (c : ascii) : bool :=
  let n := nat_of_ascii c in ((n =? 10) || (n =? 13))%nat.

(** [\d] *)
Definition is_digit (c : ascii) : bool :=
  let n := nat_of_ascii c in ((48 <=? n) && (n <=? 57))%nat.

Fixpoint trim_start (s : string) : string :=
  match s with
  | EmptyString => EmptyString
  | String c r => if is_ws c then trim_start r else s
  end.

Fixpoint trim_end (s : string) : string :=
  match s with
  | EmptyString => EmptyString
  | String c r =>
      let r' := trim_end r in
      match r' with
      | EmptyString => if is_ws c then EmptyString else String c EmptyString
      | _ => String c r'
      end
  end.

(** [s.trim()] *)
Definition trim (s : string) : string := trim_end (trim_start s).

(** [xs.join(sep)] *)
Fixpoint join (sep : string) (xs : list string) : string :=
  match xs with
  | [] => EmptyString
  | [x] => x
  | x :: rest => x ++ sep ++ join sep rest
  end.

(** [s.split('\n')] *)
Fixpoint split_nl_acc (cur : string) (s : string) : list string :=
  match s with
  | EmptyString => [cur]
  | String c r =>
      if Ascii.eqb c "010"%char then cur :: split_nl_acc EmptyString r
      else split_nl_acc (cur ++ String c EmptyString) r
  end.

Definition split_nl (s : string) : list string := split_nl_acc EmptyString s.

(** [s.startsWith(p)], returning what follows the prefix. *)
Fixpoint strip_prefix (p s : string) : option string :=
  match p, s with
  | EmptyString, _ => Some s
  | String a p', String b s' => if Ascii.eqb a b then strip_prefix p' s' else None
  | String _ _, EmptyString => None
  end.

(** ** [extractVideoId] (route.ts lines 79-90 and 243-254, identical)

    Pattern 1: [/(?:youtube\.com\/watch\?v=|youtu\.be\/|youtube\.com\/embed\/)([^&\n?#]+)/],
    unanchored: the engine tries every start position from the left and, at
    each, the three alternatives in order; group 1 is greedy and needs one
    character at least.
    Pattern 2: [/^([a-zA-Z0-9_-]{11})$/]. *)

Definition url_alternatives : list string :=
  ["youtube.com/watch?v="; "youtu.be/"; "youtube.com/embed/"].

(** [[^&\n?#]] *)
Definition is_id_delim (c : ascii) : bool :=
  Ascii.eqb c "&"%char || Ascii.eqb c "010"%char
  || Ascii.eqb c "?"%char || Ascii.eqb c "#"%char.

(** greedy [[^&\n?#]+] from the start of [s] *)
Fixpoint take_id (s : string) : string :=
  match s with
  | EmptyString => EmptyString
  | String c r => if is_id_delim c then EmptyString else String c (take_id r)
  end.

(** the pattern at one start position: first alternative that is followed
    by at least one group character *)
Fixpoint match_alternatives (alts : list string) (s : string) : option string :=
  match alts with
  | [] => None
  | p :: ps =>
      match strip_prefix p s with
      | Some (String c r) =>
          if is_id_delim c then match_alternatives ps s
          else Some (take_id (String c r))
      | _ => match_alternatives ps s
      end
  end.

(** [url.match(pattern1)], group 1 of the leftmost match *)
Fixpoint match_url_pattern (s : string) : option string :=
  match match_alternatives url_alternatives s with
  | Some g => Some g
  | None =>
      match s with
      | EmptyString => None
      | String _ r => match_url_pattern r
      end
  end.

(** [[a-zA-Z0-9_-]] *)
Definition is_id_char (c : ascii) : bool :=
  let n := nat_of_ascii c in
  (((97 <=? n) && (n <=? 122)) || ((65 <=? n) && (n <=? 90))
   || is_digit c || (n =? 95) || (n =? 45))%nat.

Fixpoint all_chars (f : ascii -> bool) (s : string) : bool :=
  match s with
  | EmptyString => true
  | String c r => f c && all_chars f r
  end.

(** [url.match(pattern2)], group 1 being the whole input *)
Definition match_bare_pattern (s : string) : option string :=
  if (String.length s =? 11)%nat && all_chars is_id_char s then Some s else None.

Definition extractVideoId (url : string) : option string :=
  match match_url_pattern url with
  | Some m => Some m
  | None =>
      match match_bare_pattern url with
      | Some m => Some m
      | None => None
      end
  end.

(** ** [parseSrtToText] (route.ts lines 294-320) *)

(** [/^\d+$/.test(trimmed)] *)
Definition is_sequence_number (s : string) : bool :=
  match s with
  | EmptyString => false
  | _ => all_chars is_digit s
  end.

(** [\d{n}] at the start of [s], returning the rest *)
Fixpoint digits (n : nat) (s : string) : option string :=
  match n, s with
  | O, _ => Some s
  | S n', String c r => if is_digit c then digits n' r else None
  | S _, EmptyString => None
  end.

Definition expect (c : ascii) (s : string) : option string :=
  match s with
  | String d r => if Ascii.eqb c d then Some r else None
  | EmptyString => None
  end.

(** [[,\.]] *)
Definition comma_or_dot (s : string) : option string :=
  match s with
  | String d r => if Ascii.eqb d ","%char || Ascii.eqb d "."%char then Some r else None
  | EmptyString => None
  end.

Definition obind {A B} (o : option A) (f : A -> option B) : option B :=
  match o with Some a => f a | None => None end.

(** [\d{2}:\d{2}:\d{2}[,\.]\d{3}] *)
Definition timestamp (s : string) : option string :=
  obind (digits 2 s) (fun s =>
  obind (expect ":" s) (fun s =>
  obind (digits 2 s) (fun s =>
  obind (expect ":" s) (fun s =>
  obind (digits 2 s) (fun s =>
  obind (comma_or_dot s) (fun s =>
  digits 3 s)))))).

(** [\s*], greedy; what follows it is never whitespace, so no backtracking *)
Definition skip_ws (s : string) : string := trim_start s.

(** [/^\d{2}:\d{2}:\d{2}[,\.]\d{3}\s*-->\s*\d{2}:\d{2}:\d{2}[,\.]\d{3}$/.test(trimmed)] *)
Definition is_timestamp_line (s : string) : bool :=
  match obind (timestamp s) (fun s =>
        obind (strip_prefix "-->" (skip_ws s)) (fun s =>
        timestamp (skip_ws s))) with
  | Some EmptyString => true
  | _ => false
  end.

(** the [for] loop of lines 299-313 *)
Fixpoint srt_text_lines (lines : list string) : list string :=
  match lines with
  | [] => []
  | line :: rest =>
      let trimmed := trim line in
      if String.eqb trimmed "" then srt_text_lines rest
      else if is_sequence_number trimmed then srt_text_lines rest
      else if is_timestamp_line trimmed then srt_text_lines rest
      else trimmed :: srt_text_lines rest
  end.

(** [.replace(/\s+/g, ' ')] *)
Fixpoint collapse_ws (in_run : bool) (s : string) : string :=
  match s with
  | EmptyString => EmptyString
  | String c r =>
      if is_ws c then
        if in_run then collapse_ws true r else String " " (collapse_ws true r)
      else String c (collapse_ws false r)
  end.

(** [.replace(/\[.*?\]/g, '')]: at a ['['], the lazy [.*?] stops at the
    first [']']; a line terminator before it makes the match fail at that
    position, and the scan goes on with the next character. *)
Fixpoint strip_brackets (s : string) : string :=
  match s with
  | EmptyString => EmptyString
  | String c r =>
      if Ascii.eqb c "["%char then
        match (fix scan (t : string) : option string :=
                 match t with
                 | EmptyString => None
                 | String d t' =>
                     if Ascii.eqb d "]"%char then Some (strip_brackets t')
                     else if is_line_term d then None
                     else scan t'
                 end) r with
        | Some out => out
        | None => String c (strip_brackets r)
        end
      else String c (strip_brackets r)
  end.

Definition parseSrtToText (srt : string) : string :=
  let textLines := srt_text_lines (split_nl srt) in
  trim (strip_brackets (collapse_ws false (join " " textLines))).


(** ** Effects: a state and exception monad over the world

    The world holds the file system (an association list path -> content,
    most recent binding first) and the log of calls made to external
    services.  A thrown JavaScript value is either an [Error] with its
    message or some other value. *)

Inductive exn :=
| JsError (message : string)
| NonErrorThrown.

Inductive outcome (A : Type) :=
| Ok (a : A)
| Thrown (e : exn).
Arguments Ok {A} a.
Arguments Thrown {A} e.

Inductive call :=
| CallCaptions (videoId : string)      (* YoutubeTranscript.fetchTranscript *)
| CallExec (command : string)          (* execAsync *)
| CallAssembly (audio_url : string)    (* client.transcripts.transcribe *)
| CallUpload (fileName : string)       (* client.files.upload *)
| CallLLM (transcript : string).       (* analyzeWithAI *)

Definition filesystem := list (string * string).

Record world := mkWorld { fs : filesystem; calls : list call }.

Definition M (A : Type) := world -> outcome A * world.

Definition ret {A} (a : A) : M A := fun w => (Ok a, w).

Definition bind {A B} (m : M A) (k : A -> M B) : M B :=
  fun w => match m w with
           | (Ok a, w') => k a w'
           | (Thrown e, w') => (Thrown e, w')
           end.

Notation "x <- m ;; k" := (bind m (fun x => k))
  (at level 61, m at next level, right associativity).
Notation "m ;;; k" := (bind m (fun _ => k))
  (at level 61, right associativity).

Definition throw {A} (e : exn) : M A := fun w => (Thrown e, w).

(** [try { m } catch (e) { h(e) }] *)
Definition try_catch {A} (m : M A) (h : exn -> M A) : M A :=
  fun w => match m w with
           | (Ok a, w') => (Ok a, w')
           | (Thrown e, w') => h e w'
           end.

(** [try { m } finally { fin }]: an exception of [fin] replaces the result *)
Definition try_finally {A} (m : M A) (fin : M unit) : M A :=
  fun w => match m w with
           | (r, w') => match fin w' with
                        | (Ok _, w'') => (r, w'')
                        | (Thrown e, w'') => (Thrown e, w'')
                        end
           end.

Definition log_call (c : call) : M unit :=
  fun w => (Ok tt, mkWorld (fs w) (calls w ++ [c])).

Fixpoint fs_lookup (p : string) (f : filesystem) : option string :=
  match f with
  | [] => None
  | (q, c) :: rest => if String.eqb p q then Some c else fs_lookup p rest
  end.

Definition fs_remove (p : string) (f : filesystem) : filesystem :=
  filter (fun e => negb (String.eqb p (fst e))) f.

(** [readFile(p, 'utf-8')] *)
Definition readFile (p : string) : M string :=
  fun w => match fs_lookup p (fs w) with
           | Some c => (Ok c, w)
           | None => (Thrown (JsError ("ENOENT: no such file or directory, open '" ++ p ++ "'")), w)
           end.

(** [unlink(p)] *)
Definition unlink (p : string) : M unit :=
  fun w => match fs_lookup p (fs w) with
           | Some _ => (Ok tt, mkWorld (fs_remove p (fs w)) (calls w))
           | None => (Thrown (JsError ("ENOENT: no such file or directory, unlink '" ++ p ++ "'")), w)
           end.

(** ** External collaborators *)

(** the fields of an AssemblyAI transcript that the code reads *)
Record assembly_transcript := mkAssemblyTranscript {
  at_status : string;
  at_error : option string;
  at_text : option string }.

Record env := mkEnv {
  (** [YoutubeTranscript.fetchTranscript(videoId)]: the items' [text]s *)
  captions_of : string -> outcome (list string);
  (** [execAsync(command, { timeout: 60000 })]: may write files *)
  exec_of : string -> filesystem -> outcome unit * filesystem;
  (** [client.transcripts.transcribe({ audio_url })] *)
  assembly_of : string -> outcome assembly_transcript;
  (** [client.files.upload(buffer)]: the upload URL *)
  upload_of : string -> outcome string;
  (** the OpenRouter reply: [None] when [!response.ok], otherwise
      [data.choices[0].message.content] *)
  llm_of : string -> option string;
  (** [process.env.ASSEMBLYAI_API_KEY] *)
  assemblyai_key : option string;
  (** [tmpdir()] and [Date.now()] rendered in decimal *)
  tmp_dir : string;
  now_ms : string }.

(** JavaScript truthiness of an optional string *)
Definition truthy (o : option string) : bool :=
  match o with
  | Some EmptyString | None => false
  | Some _ => true
  end.

Section Externals.
Variable E : env.

Definition fetchTranscript (videoId : string) : M (list string) :=
  log_call (CallCaptions videoId) ;;;
  fun w => (captions_of E videoId, w).

Definition execAsync (command : string) : M unit :=
  log_call (CallExec command) ;;;
  fun w => let (r, f) := exec_of E command (fs w) in (r, mkWorld f (calls w)).

Definition assembly_transcribe (audio_url : string) : M assembly_transcript :=
  log_call (CallAssembly audio_url) ;;;
  fun w => (assembly_of E audio_url, w).

Definition assembly_upload (fileName : string) : M string :=
  log_call (CallUpload fileName) ;;;
  fun w => (upload_of E fileName, w).

(** [analyzeWithAI] (route.ts lines 111-156 and 322-367,
    transcribe-audio/route.ts lines 95-140): one request whose user message
    embeds [transcript]; a non-ok response throws. *)
Definition analyzeWithAI (transcript : string) : M string :=
  log_call (CallLLM transcript) ;;;
  match llm_of E transcript with
  | Some content => ret content
  | None => throw (JsError "Failed to analyze with AI")
  end.

End Externals.

(** ** Responses *)

Record error_body := mkErrorBody {
  error : string;
  suggestion : option string;
  details : option string }.

Record analyze_body := mkAnalyzeBody {
  videoId : string;
  transcriptLength : nat;
  transcriptSource : string;
  analysis : string }.

Inductive response :=
| Json200 (b : analyze_body)
| JsonError (status : nat) (b : error_body).

(** [error instanceof Error ? error.message : 'Unknown error'] *)
Definition error_details (e : exn) : string :=
  match e with
  | JsError m => m
  | NonErrorThrown => "Unknown error"
  end.

(** [!transcript || transcript.trim().length === 0] *)
Definition is_blank (transcript : string) : bool :=
  String.eqb transcript "" || (String.length (trim transcript) =? 0)%nat.

(** ** Truncation (route.ts lines 58-61 and 222-225,
    transcribe-audio/route.ts lines 73-76, the same three lines) *)

Definition maxLength : nat := 15000.

Definition truncateTranscript (transcript : string) : string :=
  if (maxLength <? String.length transcript)%nat
  then substring 0 maxLength transcript ++ "... [truncated]"
  else transcript.

(** the tail shared by both versions of [/api/analyze] (route.ts lines
    57-71 and 221-235) *)
Definition analyze_and_respond (E : env) (vid transcript source : string)
  : M response :=
  let truncatedTranscript := truncateTranscript transcript in
  analysis <- analyzeWithAI E truncatedTranscript ;;
  ret (Json200 (mkAnalyzeBody vid (String.length transcript) source analysis)).

Definition bad_request (err : string) (sugg det : option string) : response :=
  JsonError 400 (mkErrorBody err sugg det).

Definition internal_error (err : string) : response :=
  JsonError 500 (mkErrorBody err None None).

(** [transcript.error || 'Transcription failed'] *)
Definition or_default (o : option string) (d : string) : string :=
  match o with
  | Some s => if String.eqb s "" then d else s
  | None => d
  end.

(** the two checks on an AssemblyAI transcript (route.ts lines 100-108,
    transcribe-audio/route.ts lines 62-70) *)
Definition check_assembly_transcript (t : assembly_transcript) : M string :=
  if String.eqb (at_status t) "error"
  then throw (JsError (or_default (at_error t) "Transcription failed"))
  else match at_text t with
       | Some EmptyString | None => throw (JsError "No transcript text returned")
       | Some text => ret text
       end.

(** outcome of the acquisition part of a handler: an early [return] of a
    response, or the transcript with its source tag *)
Definition acquired := (response + string * string)%type.

(** ** [/api/analyze], captions then AssemblyAI (route.ts lines 1-156) *)
Module AnalyzeAssembly.

Definition transcribeWithAssemblyAI (E : env) (videoUrl : string) : M string :=
  transcript <- assembly_transcribe E videoUrl ;;
  check_assembly_transcript transcript.

Definition no_key_error : string :=
  "This video has no captions available. Audio transcription requires an AssemblyAI API key to be configured.".
Definition no_key_suggestion : string :=
  "Try a video with captions enabled, or configure ASSEMBLYAI_API_KEY for audio transcription.".
Definition all_failed_error : string :=
  "Could not fetch captions or transcribe audio. The video may be restricted or too long.".

Definition POST (E : env) (videoUrl : option string) : M response :=
  try_catch
    (match videoUrl with
     | None | Some EmptyString => ret (bad_request "Video URL is required" None None)
     | Some url =>
         match extractVideoId url with
         | None => ret (bad_request "Invalid YouTube URL" None None)
         | Some vid =>
             acq <- @try_catch acquired
               (transcriptItems <- fetchTranscript E vid ;;
                let transcript := join " " transcriptItems in
                if is_blank transcript then throw (JsError "Empty transcript")
                else ret (inr (transcript, "captions")))
               (fun _captionError =>
                  if negb (truthy (assemblyai_key E))
                  then ret (inl (bad_request no_key_error (Some no_key_suggestion) None))
                  else try_catch
                         (transcript <- transcribeWithAssemblyAI E url ;;
                          ret (inr (transcript, "audio-transcription")))
                         (fun transcribeError =>
                            ret (inl (bad_request all_failed_error None
                                        (Some (error_details transcribeError)))))) ;;
             match acq with
             | inl resp => ret resp
             | inr (transcript, transcriptSource) =>
                 analyze_and_respond E vid transcript transcriptSource
             end
         end
     end)
    (fun _error => ret (internal_error "An error occurred processing the video")).

End AnalyzeAssembly.

(** ** [/api/analyze], captions then yt-dlp (route.ts lines 158-368) *)
Module AnalyzeYtDlp.

Definition dq : string := String "034"%char EmptyString.

(** [join(tmpdir(), `yt-${videoId}-${Date.now()}`)], [tmpdir()] having no
    trailing separator *)
Definition temp_file (E : env) (vid : string) : string :=
  tmp_dir E ++ "/" ++ "yt-" ++ vid ++ "-" ++ now_ms E.

Definition ytdlp_command (tempFile vid : string) : string :=
  "yt-dlp --skip-download --write-auto-sub --sub-lang en --sub-format srt -o "
  ++ dq ++ tempFile ++ dq ++ " " ++ dq ++ "https://www.youtube.com/watch?v=" ++ vid ++ dq
  ++ " 2>&1".

Definition fetchWithYtDlp (E : env) (vid : string) : M string :=
  let tempFile := temp_file E vid in
  let srtFile := tempFile ++ ".en.srt" in
  try_finally
    (execAsync E (ytdlp_command tempFile vid) ;;;
     srtContent <- try_catch (readFile srtFile)
                     (fun _ => let altFile := tempFile ++ ".srt" in readFile altFile) ;;
     let transcript := parseSrtToText srtContent in
     if is_blank transcript then throw (JsError "Empty transcript from yt-dlp")
     else ret transcript)
    (try_catch (unlink srtFile) (fun _ => ret tt)).

Definition all_failed_error : string :=
  "Could not fetch captions for this video. Try uploading the audio file instead.".
Definition all_failed_suggestion : string :=
  "Use the " ++ dq ++ "Upload Audio" ++ dq
  ++ " tab - download the audio locally with yt-dlp, then upload it here.".

Definition POST (E : env) (videoUrl : option string) : M response :=
  try_catch
    (match videoUrl with
     | None | Some EmptyString => ret (bad_request "Video URL is required" None None)
     | Some url =>
         match extractVideoId url with
         | None => ret (bad_request "Invalid YouTube URL" None None)
         | Some vid =>
             acq <- @try_catch acquired
               (transcriptItems <- fetchTranscript E vid ;;
                let transcript := join " " transcriptItems in
                if is_blank transcript then throw (JsError "Empty transcript")
                else ret (inr (transcript, "captions")))
               (fun _npmError =>
                  try_catch
                    (transcript <- fetchWithYtDlp E vid ;;
                     ret (inr (transcript, "yt-dlp-captions")))
                    (fun ytdlpError =>
                       ret (inl (bad_request all_failed_error (Some all_failed_suggestion)
                                   (Some (error_details ytdlpError)))))) ;;
             match acq with
             | inl resp => ret resp
             | inr (transcript, transcriptSource) =>
                 analyze_and_respond E vid transcript transcriptSource
             end
         end
     end)
    (fun _error => ret (internal_error "An error occurred processing the video")).

End AnalyzeYtDlp.

(** ** [/api/transcribe-audio] (transcribe-audio/route.ts lines 9-93) *)
Module TranscribeAudio.

Record audio_file := mkAudioFile { name : string; type : string; size : N }.

Record upload_body := mkUploadBody {
  fileName : string;
  transcriptLength : nat;
  transcriptSource : string;
  analysis : string }.

Inductive response :=
| Json200 (b : upload_body)
| JsonError (status : nat) (b : error_body).

Definition validTypes : list string :=
  ["audio/mpeg"; "audio/mp3"; "audio/wav"; "audio/x-wav";
   "audio/mp4"; "audio/m4a"; "audio/x-m4a"; "audio/webm";
   "audio/ogg"; "audio/flac"; "video/mp4"; "video/webm"].

Definition lower (c : ascii) : ascii :=
  let n := nat_of_ascii c in
  if ((65 <=? n) && (n <=? 90))%nat then ascii_of_nat (n + 32) else c.

Fixpoint lowercase (s : string) : string :=
  match s with
  | EmptyString => EmptyString
  | String c r => String (lower c) (lowercase r)
  end.

Definition ends_with (suffix s : string) : bool :=
  (String.length suffix <=? String.length s)%nat &&
  String.eqb (substring (String.length s - String.length suffix) (String.length suffix) s) suffix.

(** [audioFile.name.match(/\.(mp3|wav|m4a|mp4|webm|ogg|flac)$/i)] *)
Definition has_audio_extension (fname : string) : bool :=
  existsb (fun ext => ends_with ("." ++ ext) (lowercase fname))
    ["mp3"; "wav"; "m4a"; "mp4"; "webm"; "ogg"; "flac"].

Definition maxSize : N := (500 * 1024 * 1024)%N.

Definition POST (E : env) (audio : option audio_file) : M response :=
  try_catch
    (if negb (truthy (assemblyai_key E))
     then ret (JsonError 500 (mkErrorBody "AssemblyAI API key is not configured." None None))
     else
     match audio with
     | None => ret (JsonError 400 (mkErrorBody "Audio file is required" None None))
     | Some audioFile =>
         if negb (existsb (String.eqb (type audioFile)) validTypes)
            && negb (has_audio_extension (name audioFile))
         then ret (JsonError 400 (mkErrorBody
                "Invalid file type. Supported: MP3, WAV, M4A, MP4, WebM, OGG, FLAC" None None))
         else if (maxSize <? size audioFile)%N
         then ret (JsonError 400 (mkErrorBody "File too large. Maximum size is 500MB." None None))
         else
           uploadUrl <- assembly_upload E (name audioFile) ;;
           transcriptResult <- assembly_transcribe E uploadUrl ;;
           transcript <- check_assembly_transcript transcriptResult ;;
           let truncatedTranscript := truncateTranscript transcript in
           analysis <- analyzeWithAI E truncatedTranscript ;;
           ret (Json200 (mkUploadBody (name audioFile) (String.length transcript)
                           "audio-upload" analysis))
     end)
    (fun e => ret (JsonError 500 (mkErrorBody
        (match e with
         | JsError m => m
         | NonErrorThrown => "An error occurred processing the audio"
         end) None None))).

End TranscribeAudio.


(** ** Predicates on runs *)

(** [m] only appends to the call log *)
Definition appends {A} (m : M A) : Prop :=
  forall w, exists l, (calls (snd (m w)) = calls w ++ l)%list.

(** [m] logs [c] before any other call *)
Definition logs_first {A} (c : call) (m : M A) : Prop :=
  forall w, exists l, (calls (snd (m w)) = calls w ++ c :: l)%list.

(** the captions strategy fails: it throws, or its joined text is blank *)
Definition captions_fail (E : env) (vid : string) : Prop :=
  match captions_of E vid with
  | Thrown _ => True
  | Ok segs => is_blank (join " " segs) = true
  end.

(** [m] only appends calls satisfying [P] to the log *)
Definition logs_only {A} (P : call -> Prop) (m : M A) : Prop :=
  forall w, exists l, (calls (snd (m w)) = calls w ++ l)%list /\ Forall P l.

(** a call other than a shell command *)
Definition not_exec (c : call) : Prop :=
  match c with CallExec _ => False | _ => True end.

(** a call that does not reach AssemblyAI *)
Definition not_assembly (c : call) : Prop :=
  match c with CallAssembly _ | CallUpload _ => False | _ => True end.

(** the files accepted by the two checks of [/api/transcribe-audio]
    (lines 33-47): a listed MIME type or an audio extension, and at most
    [maxSize] bytes *)
Definition audio_accepted (f : TranscribeAudio.audio_file) : bool :=
  (existsb (String.eqb (TranscribeAudio.type f)) TranscribeAudio.validTypes
   || TranscribeAudio.has_audio_extension (TranscribeAudio.name f))
  && (TranscribeAudio.size f <=? TranscribeAudio.maxSize)%N.

(** ** Predicates on normalized text *)

(** the inner [scan] of [strip_brackets], named *)
Fixpoint scan_close (t : string) : option string :=
  match t with
  | EmptyString => None
  | String d t' =>
      if Ascii.eqb d "]"%char then Some (strip_brackets t')
      else if is_line_term d then None
      else scan_close t'
  end.

Definition not_close (c : ascii) : bool := negb (Ascii.eqb c "]"%char).

(** no ['['] is followed, anywhere later, by a [']'] *)
Fixpoint no_bracket_pair (s : string) : bool :=
  match s with
  | EmptyString => true
  | String c r =>
      (negb (Ascii.eqb c "["%char) || all_chars not_close r) && no_bracket_pair r
  end.

(** the only whitespace character is the plain space *)
Definition space_only (c : ascii) : bool := negb (is_ws c) || Ascii.eqb c " "%char.

(** a character other than whitespace and ['['] *)
Definition plain_char (c : ascii) : bool := negb (is_ws c) && negb (Ascii.eqb c "["%char).

Definition starts_with_ws (s : string) : bool :=
  match s with
  | String c _ => is_ws c
  | EmptyString => false
  end.

Fixpoint ends_with_ws (s : string) : bool :=
  match s with
  | EmptyString => false
  | String c EmptyString => is_ws c
  | String _ r => ends_with_ws r
  end.

(** ** Concrete inputs used by the witnesses and counterexamples *)

Definition demo_id : string := "dQw4w9WgXcQ".
Definition demo_url : string := "https://youtu.be/dQw4w9WgXcQ".
Definition demo_tmp : string := "/tmp".
Definition demo_now : string := "1700000000000".
Definition world0 : world := mkWorld [] [].

(** the yt-dlp temp file name without the [.en] suffix *)
Definition demo_alt_srt : string :=
  AnalyzeYtDlp.temp_file (mkEnv (fun _ => Thrown NonErrorThrown) (fun _ f => (Ok tt, f))
     (fun _ => Thrown NonErrorThrown) (fun _ => Thrown NonErrorThrown) (fun _ => None)
     None demo_tmp demo_now) demo_id ++ ".srt".

Definition demo_srt : string :=
  "1" ++ String "010" ("00:00:01,000 --> 00:00:02,000" ++ String "010" ("Hello there" ++ String "010" "")).

(** an environment built from the outcomes of each collaborator; the
    model answers every prompt with ["analysis"] *)
Definition demo_env (caps : outcome (list string))
    (exec : filesystem -> outcome unit * filesystem)
    (asm : outcome assembly_transcript) (key : option string) : env :=
  mkEnv (fun _ => caps) (fun _ f => exec f) (fun _ => asm) (fun _ => Ok "https://cdn/upload")
        (fun _ => Some "analysis") key demo_tmp demo_now.

(** yt-dlp saves the subtitles without a language suffix *)
Definition exec_writes_alt (f : filesystem) : outcome unit * filesystem :=
  (Ok tt, (demo_alt_srt, demo_srt) :: f).

Definition exec_fails (f : filesystem) : outcome unit * filesystem :=
  (Thrown (JsError "Command failed: yt-dlp"), f).

Fixpoint repeat_char (n : nat) (c : ascii) : string :=
  match n with
  | O => EmptyString
  | S n' => String c (repeat_char n' c)
  end.

(** captions are blank, yt-dlp fails, no AssemblyAI key *)
Definition blank_env : env :=
  demo_env (Ok [""; " "]) exec_fails (Thrown NonErrorThrown) None.

(** captions fail, yt-dlp writes [demo_alt_srt] *)
Definition alt_env : env :=
  demo_env (Thrown (JsError "Transcript is disabled on this video")) exec_writes_alt
           (Thrown NonErrorThrown) None.

Definition long_transcript : string := repeat_char 20000 "a".
Definition max_transcript : string := repeat_char 15000 "a".

(** captions fail, AssemblyAI is configured and fails *)
Definition assembly_fail_env : env :=
  demo_env (Thrown (JsError "Transcript is disabled on this video")) exec_fails
           (Thrown (JsError "Request failed with status 403")) (Some "key").

(** captions return one segment with a bracketed cue *)
Definition music_env : env :=
  demo_env (Ok ["Hello [Music] world"]) exec_fails (Thrown NonErrorThrown) None.

(** a line of an SRT file that the loop of [parseSrtToText] skips:
    blank, a sequence number or a timestamp line *)
Definition is_srt_header (line : string) : bool :=
  let trimmed := trim line in
  String.eqb trimmed "" || is_sequence_number trimmed || is_timestamp_line trimmed.

Definition no_newline (s : string) : bool :=
  all_chars (fun c => negb (Ascii.eqb c "010"%char)) s.

(** the [.en.srt] name used for [demo_id] *)
Definition demo_en_srt : string :=
  AnalyzeYtDlp.temp_file blank_env demo_id ++ ".en.srt".

(** yt-dlp succeeds and writes [files] *)
Definition exec_writes (files : filesystem) (f : filesystem) : outcome unit * filesystem :=
  (Ok tt, (files ++ f)%list).

(** captions unavailable; yt-dlp behaves as [exec] *)
Definition ytdlp_env (exec : filesystem -> outcome unit * filesystem) : env :=
  demo_env (Thrown (JsError "Transcript is disabled on this video")) exec
           (Thrown NonErrorThrown) None.

(** two cues' headers with no text *)
Definition cue_headers : list string :=
  ["1"; "00:00:01,000 --> 00:00:02,000"; ""; "2"; "00:00:02.000 --> 00:00:03.500"; ""].

Definition cue_headers_srt : string := join (String "010" EmptyString) cue_headers.

(** an upload at the size limit whose MIME type is not listed, accepted
    by its extension, matched without regard to case *)
Definition demo_audio : TranscribeAudio.audio_file :=
  TranscribeAudio.mkAudioFile "Talk.MP3" "application/octet-stream" TranscribeAudio.maxSize.

(** AssemblyAI configured and answering [asm]; the upload succeeds *)
Definition audio_env (asm : outcome assembly_transcript) : env :=
  demo_env (Thrown NonErrorThrown) exec_fails asm (Some "key").

(** captions ["Hello"; "world"], nothing else available *)
Definition hello_env : env :=
  demo_env (Ok ["Hello"; "world"]) exec_fails (Thrown NonErrorThrown) None.

(** captions available, the model request fails *)
Definition llm_down_env : env :=
  mkEnv (fun _ => Ok ["Hello"; "world"]) (fun _ f => exec_fails f)
        (fun _ => Thrown NonErrorThrown) (fun _ => Thrown NonErrorThrown)
        (fun _ => None) None demo_tmp demo_now.

(** the upload is refused *)
Definition upload_refused_env : env :=
  mkEnv (fun _ => Thrown NonErrorThrown) (fun _ f => exec_fails f)
        (fun _ => Thrown NonErrorThrown) (fun _ => Thrown (JsError "Payload Too Large"))
        (fun _ => Some "analysis") (Some "key") demo_tmp demo_now.

(** two cues, each with a one-word text line *)
Definition demo_cues : list string :=
  ["1"; "00:00:01,000 --> 00:00:02,000"; "Hello"; ""; "2"; "00:00:02,000 --> 00:00:03,000";
   "there"; ""].

(** captions fail; AssemblyAI reports an error status *)
Definition assembly_error_env : env :=
  demo_env (Thrown (JsError "Transcript is disabled on this video")) exec_fails
           (Ok (mkAssemblyTranscript "error" (Some "Audio duration is too short") None))
           (Some "key").

(** a word: non-empty, no whitespace and no ['['] *)
Definition is_word (s : string) : Prop := all_chars plain_char s = true /\ s <> EmptyString.

(** captions fail; AssemblyAI, configured, returns the one-segment text
    of [music_env] *)
Definition music_assembly_env : env :=
  demo_env (Thrown (JsError "Transcript is disabled on this video")) exec_fails
           (Ok (mkAssemblyTranscript "completed" None (Some "Hello [Music] world")))
           (Some "key").

(** the same text from an uploaded file *)
Definition music_audio_env : env :=
  audio_env (Ok (mkAssemblyTranscript "completed" None (Some "Hello [Music] world"))).

(** * Properties *)

Open Scope list_scope.

(** ** The call log only grows *)


Create HintDb appends_db.

Lemma appends_ret {A} (a : A) : appends (ret a).
Proof. intros w; exists []; now rewrite app_nil_r. Qed.

Lemma appends_throw {A} (e : exn) : appends (A := A) (throw e).
Proof. intros w; exists []; now rewrite app_nil_r. Qed.

Lemma appends_log_call (c : call) : appends (log_call c).
Proof. intros w; now exists [c]. Qed.

Lemma appends_bind {A B} (m : M A) (k : A -> M B) :
  appends m -> (forall a, appends (k a)) -> appends (bind m k).
Proof.
  intros Hm Hk w; unfold bind.
  destruct (Hm w) as [l1 H1].
  destruct (m w) as [[a|e] w1]; simpl in *.
  - destruct (Hk a w1) as [l2 H2]; exists (l1 ++ l2).
    now rewrite H2, H1, app_assoc.
  - now exists l1.
Qed.

Lemma appends_try_catch {A} (m : M A) (h : exn -> M A) :
  appends m -> (forall e, appends (h e)) -> appends (try_catch m h).
Proof.
  intros Hm Hh w; unfold try_catch.
  destruct (Hm w) as [l1 H1].
  destruct (m w) as [[a|e] w1]; simpl in *.
  - now exists l1.
  - destruct (Hh e w1) as [l2 H2]; exists (l1 ++ l2).
    now rewrite H2, H1, app_assoc.
Qed.

Lemma appends_try_finally {A} (m : M A) (fin : M unit) :
  appends m -> appends fin -> appends (try_finally m fin).
Proof.
  intros Hm Hf w; unfold try_finally.
  destruct (Hm w) as [l1 H1].
  destruct (m w) as [r w1]; simpl in *.
  destruct (Hf w1) as [l2 H2].
  destruct (fin w1) as [[u|e] w2]; simpl in *;
    exists (l1 ++ l2); now rewrite H2, H1, app_assoc.
Qed.

Lemma appends_readFile (p : string) : appends (readFile p).
Proof.
  intros w; exists []; unfold readFile.
  destruct (fs_lookup p (fs w)); simpl; now rewrite app_nil_r.
Qed.

Lemma appends_unlink (p : string) : appends (unlink p).
Proof.
  intros w; exists []; unfold unlink.
  destruct (fs_lookup p (fs w)); simpl; now rewrite app_nil_r.
Qed.

Lemma appends_oracle {A} (f : world -> outcome A) :
  appends (fun w => (f w, w)).
Proof. intros w; exists []; now rewrite app_nil_r. Qed.

Lemma appends_exec_step (E : env) (cmd : string) :
  appends (fun w => let (r, f) := exec_of E cmd (fs w) in (r, mkWorld f (calls w))).
Proof.
  intros w; exists []; destruct (exec_of E cmd (fs w)); simpl; now rewrite app_nil_r.
Qed.

#[local] Hint Resolve appends_ret appends_throw appends_log_call appends_readFile
  appends_unlink appends_oracle appends_exec_step : appends_db.

(** split [appends] goals along the structure of a program *)
Ltac appends_split :=
  repeat first
    [ progress intros
    | apply appends_bind
    | apply appends_try_catch
    | apply appends_try_finally
    | solve [ auto with appends_db ]
    | match goal with
      | |- appends (if ?b then _ else _) => destruct b
      | |- appends (match ?x with _ => _ end) => destruct x
      end ].

Lemma appends_analyzeWithAI (E : env) (t : string) : appends (analyzeWithAI E t).
Proof. unfold analyzeWithAI; appends_split. Qed.

Lemma appends_check_assembly_transcript (t : assembly_transcript) :
  appends (check_assembly_transcript t).
Proof. unfold check_assembly_transcript; appends_split. Qed.

Lemma appends_analyze_and_respond (E : env) (vid t src : string) :
  appends (analyze_and_respond E vid t src).
Proof.
  unfold analyze_and_respond; appends_split; apply appends_analyzeWithAI.
Qed.

(** ** The steps of the handlers *)

Lemma analyze_and_respond_eq (E : env) (vid t src : string) (w : world) :
  analyze_and_respond E vid t src w =
  (match llm_of E (truncateTranscript t) with
   | Some a => Ok (Json200 (mkAnalyzeBody vid (String.length t) src a))
   | None => Thrown (JsError "Failed to analyze with AI")
   end,
   mkWorld (fs w) (calls w ++ [CallLLM (truncateTranscript t)])).
Proof.
  unfold analyze_and_respond, analyzeWithAI, bind, log_call, ret, throw; simpl.
  now destruct (llm_of E (truncateTranscript t)).
Qed.


Lemma logs_first_bind {A B} (c : call) (m : M A) (k : A -> M B) :
  logs_first c m -> (forall a, appends (k a)) -> logs_first c (bind m k).
Proof.
  intros Hm Hk w; unfold bind.
  destruct (Hm w) as [l1 H1].
  destruct (m w) as [[a|e] w1]; simpl in *.
  - destruct (Hk a w1) as [l2 H2]; exists (l1 ++ l2).
    rewrite H2, H1, <- app_assoc; reflexivity.
  - now exists l1.
Qed.

Lemma logs_first_try_catch {A} (c : call) (m : M A) (h : exn -> M A) :
  logs_first c m -> (forall e, appends (h e)) -> logs_first c (try_catch m h).
Proof.
  intros Hm Hh w; unfold try_catch.
  destruct (Hm w) as [l1 H1].
  destruct (m w) as [[a|e] w1]; simpl in *.
  - now exists l1.
  - destruct (Hh e w1) as [l2 H2]; exists (l1 ++ l2).
    rewrite H2, H1, <- app_assoc; reflexivity.
Qed.

Lemma logs_first_try_finally {A} (c : call) (m : M A) (fin : M unit) :
  logs_first c m -> appends fin -> logs_first c (try_finally m fin).
Proof.
  intros Hm Hf w; unfold try_finally.
  destruct (Hm w) as [l1 H1].
  destruct (m w) as [r w1]; simpl in *.
  destruct (Hf w1) as [l2 H2].
  destruct (fin w1) as [[u|e] w2]; simpl in *;
    exists (l1 ++ l2); rewrite H2, H1, <- app_assoc; reflexivity.
Qed.

Lemma logs_first_log_call {A} (c : call) (m : M A) :
  appends m -> logs_first c (log_call c ;;; m).
Proof.
  intros Hm w; unfold bind, log_call; simpl.
  destruct (Hm (mkWorld (fs w) (calls w ++ [c]))) as [l Hl].
  exists l; rewrite Hl; simpl; rewrite <- app_assoc; reflexivity.
Qed.

Lemma appends_execAsync (E : env) (cmd : string) : appends (execAsync E cmd).
Proof. unfold execAsync; appends_split. Qed.

Lemma appends_fetchWithYtDlp (E : env) (vid : string) :
  appends (AnalyzeYtDlp.fetchWithYtDlp E vid).
Proof.
  unfold AnalyzeYtDlp.fetchWithYtDlp; appends_split; apply appends_execAsync.
Qed.

Lemma fetchWithYtDlp_calls (E : env) (vid : string) :
  logs_first (CallExec (AnalyzeYtDlp.ytdlp_command (AnalyzeYtDlp.temp_file E vid) vid))
             (AnalyzeYtDlp.fetchWithYtDlp E vid).
Proof.
  unfold AnalyzeYtDlp.fetchWithYtDlp.
  apply logs_first_try_finally; [|appends_split].
  apply logs_first_bind; [|appends_split].
  unfold execAsync; apply logs_first_log_call; appends_split.
Qed.

Lemma transcribeWithAssemblyAI_calls (E : env) (url : string) :
  logs_first (CallAssembly url) (AnalyzeAssembly.transcribeWithAssemblyAI E url).
Proof.
  unfold AnalyzeAssembly.transcribeWithAssemblyAI, assembly_transcribe.
  intros w; unfold bind at 1.
  destruct (logs_first_log_call (CallAssembly url) (fun w => (assembly_of E url, w))
              (appends_oracle _) w) as [l1 H1].
  destruct ((log_call (CallAssembly url) ;;; (fun w => (assembly_of E url, w))) w)
    as [[t|e] w1]; simpl in *.
  - destruct (appends_check_assembly_transcript t w1) as [l2 H2].
    exists (l1 ++ l2); rewrite H2, H1, <- app_assoc; reflexivity.
  - now exists l1.
Qed.


Lemma ytdlp_post_captions_fail (E : env) (url vid : string) (w : world) :
  extractVideoId url = Some vid ->
  captions_fail E vid ->
  AnalyzeYtDlp.POST E (Some url) w =
  match AnalyzeYtDlp.fetchWithYtDlp E vid (mkWorld (fs w) (calls w ++ [CallCaptions vid])) with
  | (Ok t, w2) =>
      match analyze_and_respond E vid t "yt-dlp-captions" w2 with
      | (Ok r, w3) => (Ok r, w3)
      | (Thrown _, w3) => (Ok (internal_error "An error occurred processing the video"), w3)
      end
  | (Thrown e, w2) =>
      (Ok (bad_request AnalyzeYtDlp.all_failed_error (Some AnalyzeYtDlp.all_failed_suggestion)
             (Some (error_details e))), w2)
  end.
Proof.
  intros Hext Hcap.
  destruct url as [|c r]; [discriminate Hext|].
  cbv beta iota delta [AnalyzeYtDlp.POST].
  rewrite Hext.
  cbv beta iota delta [try_catch bind fetchTranscript log_call ret throw].
  unfold captions_fail in Hcap.
  destruct (captions_of E vid) as [segs|e]; simpl.
  - rewrite Hcap.
    destruct (AnalyzeYtDlp.fetchWithYtDlp E vid _) as [[t|e] w2]; [|reflexivity].
    destruct (analyze_and_respond E vid t "yt-dlp-captions" w2) as [[r'|e'] w3]; reflexivity.
  - destruct (AnalyzeYtDlp.fetchWithYtDlp E vid _) as [[t|e'] w2]; [|reflexivity].
    destruct (analyze_and_respond E vid t "yt-dlp-captions" w2) as [[r'|e''] w3]; reflexivity.
Qed.

Lemma assembly_post_captions_fail (E : env) (url vid : string) (w : world) :
  extractVideoId url = Some vid ->
  captions_fail E vid ->
  AnalyzeAssembly.POST E (Some url) w =
  let w1 := mkWorld (fs w) (calls w ++ [CallCaptions vid]) in
  if negb (truthy (assemblyai_key E)) then
    (Ok (bad_request AnalyzeAssembly.no_key_error (Some AnalyzeAssembly.no_key_suggestion) None), w1)
  else
  match AnalyzeAssembly.transcribeWithAssemblyAI E url w1 with
  | (Ok t, w2) =>
      match analyze_and_respond E vid t "audio-transcription" w2 with
      | (Ok r, w3) => (Ok r, w3)
      | (Thrown _, w3) => (Ok (internal_error "An error occurred processing the video"), w3)
      end
  | (Thrown e, w2) =>
      (Ok (bad_request AnalyzeAssembly.all_failed_error None (Some (error_details e))), w2)
  end.
Proof.
  intros Hext Hcap.
  destruct url as [|c r]; [discriminate Hext|].
  cbv beta iota delta [AnalyzeAssembly.POST].
  rewrite Hext.
  cbv beta iota zeta delta [try_catch bind fetchTranscript log_call ret throw].
  unfold captions_fail in Hcap.
  destruct (captions_of E vid) as [segs|e]; simpl; [rewrite Hcap|];
    (destruct (truthy (assemblyai_key E)); simpl; [|reflexivity]);
    (destruct (AnalyzeAssembly.transcribeWithAssemblyAI E _ _) as [[t|e'] w2]; [|reflexivity]);
    destruct (analyze_and_respond E vid t "audio-transcription" w2) as [[r'|e''] w3]; reflexivity.
Qed.

(** the captions strategy succeeds with [segs] *)
Lemma ytdlp_post_captions_ok (E : env) (url vid : string) (segs : list string) (w : world) :
  extractVideoId url = Some vid ->
  captions_of E vid = Ok segs ->
  is_blank (join " " segs) = false ->
  AnalyzeYtDlp.POST E (Some url) w =
  match analyze_and_respond E vid (join " " segs) "captions"
          (mkWorld (fs w) (calls w ++ [CallCaptions vid])) with
  | (Ok r, w3) => (Ok r, w3)
  | (Thrown _, w3) => (Ok (internal_error "An error occurred processing the video"), w3)
  end.
Proof.
  intros Hext Hcap Hnb.
  destruct url as [|c r]; [discriminate Hext|].
  cbv beta iota delta [AnalyzeYtDlp.POST].
  rewrite Hext.
  cbv beta iota delta [try_catch bind fetchTranscript log_call ret throw].
  rewrite Hcap; simpl; rewrite Hnb.
  destruct (analyze_and_respond E vid _ "captions" _) as [[r'|e''] w3]; reflexivity.
Qed.

(** ** C1 *)

(** C1 (amended): when the captions strategy returns segments whose
    space-joined text is empty or whitespace only, no route reports a
    captions success.  The yt-dlp route then always runs the yt-dlp
    download as its next external call and can only succeed with source
    ["yt-dlp-captions"]; the AssemblyAI route calls AssemblyAI next when an
    AssemblyAI key is configured (and can only succeed with source
    ["audio-transcription"]), and otherwise answers 400 with a suggestion
    without any further call. *)
Theorem blank_captions_fall_through (E : env) (url vid : string)
    (segs : list string) (w : world) :
  extractVideoId url = Some vid ->
  captions_of E vid = Ok segs ->
  is_blank (join " " segs) = true ->
  (exists l, calls (snd (AnalyzeYtDlp.POST E (Some url) w)) =
     calls w ++ CallCaptions vid
       :: CallExec (AnalyzeYtDlp.ytdlp_command (AnalyzeYtDlp.temp_file E vid) vid) :: l)
  /\ (forall b, fst (AnalyzeYtDlp.POST E (Some url) w) = Ok (Json200 b) ->
        transcriptSource b = "yt-dlp-captions")
  /\ (truthy (assemblyai_key E) = true ->
        (exists l, calls (snd (AnalyzeAssembly.POST E (Some url) w)) =
           calls w ++ CallCaptions vid :: CallAssembly url :: l)
        /\ (forall b, fst (AnalyzeAssembly.POST E (Some url) w) = Ok (Json200 b) ->
              transcriptSource b = "audio-transcription"))
  /\ (truthy (assemblyai_key E) = false ->
        AnalyzeAssembly.POST E (Some url) w =
        (Ok (bad_request AnalyzeAssembly.no_key_error (Some AnalyzeAssembly.no_key_suggestion) None),
         mkWorld (fs w) (calls w ++ [CallCaptions vid]))).
Proof.
  intros Hext Hcap Hblank.
  assert (Hf : captions_fail E vid) by (unfold captions_fail; now rewrite Hcap).
  set (w1 := mkWorld (fs w) (calls w ++ [CallCaptions vid])).
  split; [|split; [|split]].
  - rewrite (ytdlp_post_captions_fail E url vid w Hext Hf); fold w1.
    destruct (fetchWithYtDlp_calls E vid w1) as [l1 H1].
    destruct (AnalyzeYtDlp.fetchWithYtDlp E vid w1) as [[t|e] w2] eqn:Hy;
      simpl in H1; subst w1; simpl in H1.
    + rewrite analyze_and_respond_eq; simpl.
      destruct (llm_of E (truncateTranscript t)); simpl;
        exists (l1 ++ [CallLLM (truncateTranscript t)]);
        rewrite H1, <- !app_assoc; reflexivity.
    + exists l1; simpl; rewrite H1, <- !app_assoc; reflexivity.
  - intros b; rewrite (ytdlp_post_captions_fail E url vid w Hext Hf).
    destruct (AnalyzeYtDlp.fetchWithYtDlp E vid _) as [[t|e] w2]; [|discriminate].
    rewrite analyze_and_respond_eq.
    destruct (llm_of E (truncateTranscript t)); simpl; [|discriminate].
    intros H; injection H as <-; reflexivity.
  - intros Hkey.
    rewrite (assembly_post_captions_fail E url vid w Hext Hf); simpl; rewrite Hkey; simpl.
    fold w1.
    split.
    + destruct (transcribeWithAssemblyAI_calls E url w1) as [l1 H1].
      destruct (AnalyzeAssembly.transcribeWithAssemblyAI E url w1) as [[t|e] w2] eqn:Hy;
        simpl in H1; subst w1; simpl in H1.
      * rewrite analyze_and_respond_eq; simpl.
        destruct (llm_of E (truncateTranscript t)); simpl;
          exists (l1 ++ [CallLLM (truncateTranscript t)]);
          rewrite H1, <- !app_assoc; reflexivity.
      * exists l1; simpl; rewrite H1, <- !app_assoc; reflexivity.
    + intros b.
      destruct (AnalyzeAssembly.transcribeWithAssemblyAI E url w1) as [[t|e] w2]; [|discriminate].
      rewrite analyze_and_respond_eq.
      destruct (llm_of E (truncateTranscript t)); simpl; [|discriminate].
      intros H; injection H as <-; reflexivity.
  - intros Hkey.
    rewrite (assembly_post_captions_fail E url vid w Hext Hf); simpl; rewrite Hkey; reflexivity.
Qed.

Lemma blank_captions_fall_through_witness :
  extractVideoId demo_url = Some demo_id
  /\ is_blank (join " " [""; " "]) = true
  /\ exists l, calls (snd (AnalyzeYtDlp.POST blank_env (Some demo_url) world0)) =
       calls world0 ++ CallCaptions demo_id
         :: CallExec (AnalyzeYtDlp.ytdlp_command (AnalyzeYtDlp.temp_file blank_env demo_id) demo_id)
         :: l.
Proof.
  split; [reflexivity|split; [reflexivity|]].
  destruct (blank_captions_fall_through blank_env demo_url demo_id [""; " "] world0
              eq_refl eq_refl eq_refl) as [H _].
  exact H.
Defined.

(** counterexample to C1 as stated: in the AssemblyAI route without a
    key, blank captions end the request with no further strategy tried *)
Lemma blank_captions_no_key_counterexample :
  AnalyzeAssembly.POST blank_env
    (Some demo_url) world0 =
  (Ok (bad_request AnalyzeAssembly.no_key_error (Some AnalyzeAssembly.no_key_suggestion) None),
   mkWorld [] [CallCaptions demo_id]).
Proof. vm_compute. reflexivity. Qed.

(** ** Truncation *)

Lemma substring_0_length (n : nat) (s : string) :
  n <= String.length s -> String.length (substring 0 n s) = n.
Proof.
  revert s; induction n as [|n IH]; intros s Hn.
  - destruct s; reflexivity.
  - destruct s as [|c r]; simpl in *; [lia|].
    f_equal; apply IH; lia.
Qed.

(** C2: a transcript longer than 15000 characters is forwarded to the model
    as its first 15000 characters followed by ["... [truncated]"], and a
    success response reports the untruncated length. *)
Theorem long_transcript_truncated (E : env) (vid t src : string) (w : world) :
  maxLength < String.length t ->
  String.length (substring 0 15000 t) = 15000
  /\ calls (snd (analyze_and_respond E vid t src w)) =
     calls w ++ [CallLLM (substring 0 15000 t ++ "... [truncated]")%string]
  /\ (forall b, fst (analyze_and_respond E vid t src w) = Ok (Json200 b) ->
        transcriptLength b = String.length t).
Proof.
  intros Hlen.
  assert (Ht : truncateTranscript t = (substring 0 15000 t ++ "... [truncated]")%string).
  { unfold truncateTranscript; apply Nat.ltb_lt in Hlen; now rewrite Hlen. }
  split; [apply substring_0_length; unfold maxLength in Hlen; lia|].
  rewrite analyze_and_respond_eq, Ht; simpl; split; [reflexivity|].
  intros b; destruct (llm_of E _); simpl; [|discriminate].
  intros H; injection H as <-; reflexivity.
Qed.

Lemma long_transcript_truncated_witness :
  maxLength < String.length long_transcript
  /\ calls (snd (analyze_and_respond blank_env demo_id long_transcript "captions" world0)) =
     calls world0 ++ [CallLLM (substring 0 15000 long_transcript ++ "... [truncated]")%string].
Proof.
  assert (H : maxLength < String.length long_transcript)
    by (apply Nat.ltb_lt; vm_compute; reflexivity).
  split; [exact H|].
  exact (proj1 (proj2 (long_transcript_truncated blank_env demo_id long_transcript
                         "captions" world0 H))).
Defined.

(** C10: a transcript of exactly 15000 characters is not truncated: the
    model receives it unchanged, with no marker; the audio upload route
    truncates with the same [truncateTranscript]. *)
Theorem max_length_not_truncated (E : env) (vid t src : string) (w : world) :
  String.length t = maxLength ->
  truncateTranscript t = t
  /\ calls (snd (analyze_and_respond E vid t src w)) = calls w ++ [CallLLM t].
Proof.
  intros Hlen.
  assert (Ht : truncateTranscript t = t).
  { unfold truncateTranscript; rewrite Hlen, Nat.ltb_irrefl; reflexivity. }
  split; [exact Ht|].
  rewrite analyze_and_respond_eq, Ht; reflexivity.
Qed.

Lemma max_length_not_truncated_witness :
  String.length max_transcript = maxLength
  /\ truncateTranscript max_transcript = max_transcript.
Proof.
  assert (H : String.length max_transcript = maxLength) by (vm_compute; reflexivity).
  split; [exact H|].
  exact (proj1 (max_length_not_truncated blank_env demo_id max_transcript "captions" world0 H)).
Defined.

(** ** Temporary files of the yt-dlp strategy *)

Lemma fs_lookup_remove (p : string) (f : filesystem) :
  fs_lookup p (fs_remove p f) = None.
Proof.
  induction f as [|[q c] rest IH]; simpl; [reflexivity|].
  destruct (String.eqb p q) eqn:Hpq; simpl; [exact IH|].
  rewrite Hpq; exact IH.
Qed.

(** the [.en.srt] file is gone after every run of [fetchWithYtDlp] *)
Lemma fetchWithYtDlp_removes_en_srt (E : env) (vid : string) (w : world) :
  fs_lookup (AnalyzeYtDlp.temp_file E vid ++ ".en.srt")%string
    (fs (snd (AnalyzeYtDlp.fetchWithYtDlp E vid w))) = None.
Proof.
  unfold AnalyzeYtDlp.fetchWithYtDlp, try_finally.
  set (srtFile := (AnalyzeYtDlp.temp_file E vid ++ ".en.srt")%string).
  match goal with |- context [match ?body w with _ => _ end] =>
    destruct (body w) as [r w1] end.
  unfold try_catch, unlink, ret.
  destruct (fs_lookup srtFile (fs w1)) eqn:Hl; simpl.
  - apply fs_lookup_remove.
  - exact Hl.
Qed.

(** C3 (code bug): when yt-dlp writes the subtitles without the [.en]
    suffix, [fetchWithYtDlp] reads that file and succeeds, but its cleanup
    only unlinks the [.en.srt] name, so the [.srt] file stays on disk. *)
Theorem ytdlp_alt_file_left_behind :
  fst (AnalyzeYtDlp.fetchWithYtDlp alt_env demo_id world0) = Ok "Hello there"
  /\ fs_lookup demo_alt_srt (fs (snd (AnalyzeYtDlp.fetchWithYtDlp alt_env demo_id world0)))
     = Some demo_srt
  /\ fs_lookup (AnalyzeYtDlp.temp_file alt_env demo_id ++ ".en.srt")%string
       (fs (snd (AnalyzeYtDlp.fetchWithYtDlp alt_env demo_id world0))) = None.
Proof.
  split; [vm_compute; reflexivity|split; [vm_compute; reflexivity|]].
  apply fetchWithYtDlp_removes_en_srt.
Qed.

(** ** All strategies failing *)

(** C4 (amended): when every strategy fails, each [/api/analyze] route
    answers 400.  In the yt-dlp route the body carries a non-empty
    suggestion and, as details, the message of the yt-dlp failure (or
    ["Unknown error"] for a thrown non-[Error]).  In the AssemblyAI route
    the body carries no suggestion when AssemblyAI was tried and failed (its
    details being that failure's message), and carries a non-empty
    suggestion but no details when no AssemblyAI key is configured. *)
Theorem all_strategies_fail_response (E : env) (url vid : string) (w : world) (e : exn) :
  extractVideoId url = Some vid ->
  captions_fail E vid ->
  (fst (AnalyzeYtDlp.fetchWithYtDlp E vid (mkWorld (fs w) (calls w ++ [CallCaptions vid])))
     = Thrown e ->
   fst (AnalyzeYtDlp.POST E (Some url) w) =
     Ok (JsonError 400 (mkErrorBody AnalyzeYtDlp.all_failed_error
                          (Some AnalyzeYtDlp.all_failed_suggestion) (Some (error_details e))))
   /\ AnalyzeYtDlp.all_failed_suggestion <> EmptyString)
  /\ (truthy (assemblyai_key E) = true ->
      fst (AnalyzeAssembly.transcribeWithAssemblyAI E url
             (mkWorld (fs w) (calls w ++ [CallCaptions vid]))) = Thrown e ->
      fst (AnalyzeAssembly.POST E (Some url) w) =
        Ok (JsonError 400 (mkErrorBody AnalyzeAssembly.all_failed_error None
                             (Some (error_details e)))))
  /\ (truthy (assemblyai_key E) = false ->
      fst (AnalyzeAssembly.POST E (Some url) w) =
        Ok (JsonError 400 (mkErrorBody AnalyzeAssembly.no_key_error
                             (Some AnalyzeAssembly.no_key_suggestion) None))
      /\ AnalyzeAssembly.no_key_suggestion <> EmptyString).
Proof.
  intros Hext Hf.
  split; [|split].
  - intros Hy.
    rewrite (ytdlp_post_captions_fail E url vid w Hext Hf).
    destruct (AnalyzeYtDlp.fetchWithYtDlp E vid _) as [[t|e'] w2];
      simpl in Hy; [discriminate|].
    injection Hy as ->; split; [reflexivity|discriminate].
  - intros Hkey Hy.
    rewrite (assembly_post_captions_fail E url vid w Hext Hf); simpl; rewrite Hkey; simpl.
    destruct (AnalyzeAssembly.transcribeWithAssemblyAI E url _) as [[t|e'] w2];
      simpl in Hy; [discriminate|].
    injection Hy as ->; reflexivity.
  - intros Hkey.
    rewrite (assembly_post_captions_fail E url vid w Hext Hf); simpl; rewrite Hkey; simpl.
    split; [reflexivity|discriminate].
Qed.

Lemma all_strategies_fail_response_witness :
  extractVideoId demo_url = Some demo_id
  /\ captions_fail blank_env demo_id
  /\ fst (AnalyzeYtDlp.POST blank_env (Some demo_url) world0) =
     Ok (JsonError 400 (mkErrorBody AnalyzeYtDlp.all_failed_error
                          (Some AnalyzeYtDlp.all_failed_suggestion)
                          (Some "Command failed: yt-dlp"))).
Proof.
  assert (Hf : captions_fail blank_env demo_id) by (vm_compute; reflexivity).
  split; [reflexivity|split; [exact Hf|]].
  exact (proj1 (proj1 (all_strategies_fail_response blank_env demo_url demo_id world0
                         (JsError "Command failed: yt-dlp") eq_refl Hf) eq_refl)).
Defined.

(** counterexample to C4 as stated: in the AssemblyAI route, when captions
    and AssemblyAI both fail, the error carries no suggestion *)
Lemma all_fail_no_suggestion_counterexample :
  fst (AnalyzeAssembly.POST assembly_fail_env (Some demo_url) world0) =
  Ok (JsonError 400 (mkErrorBody AnalyzeAssembly.all_failed_error None
                       (Some "Request failed with status 403"))).
Proof. vm_compute; reflexivity. Qed.

(** ** Normalization by [parseSrtToText] *)

Lemma strip_brackets_cons (c : ascii) (r : string) :
  strip_brackets (String c r) =
  if Ascii.eqb c "["%char then
    match scan_close r with
    | Some out => out
    | None => String c (strip_brackets r)
    end
  else String c (strip_brackets r).
Proof. reflexivity. Qed.

Lemma all_chars_app (f : ascii -> bool) (a b : string) :
  all_chars f (a ++ b) = all_chars f a && all_chars f b.
Proof.
  induction a as [|c a IH]; simpl; [reflexivity|].
  rewrite IH, andb_assoc; reflexivity.
Qed.

Lemma all_chars_impl (f g : ascii -> bool) (s : string) :
  (forall c, f c = true -> g c = true) -> all_chars f s = true -> all_chars g s = true.
Proof.
  intros Hfg; induction s as [|c r IH]; simpl; [reflexivity|].
  intros H; apply andb_prop in H as [H1 H2].
  rewrite (Hfg c H1), (IH H2); reflexivity.
Qed.

Lemma scan_close_spec (t : string) :
  (scan_close t = None
   /\ (all_chars (fun d => negb (is_line_term d)) t = true -> all_chars not_close t = true))
  \/ (exists t1 t2, t = (t1 ++ String "]" t2)%string /\ scan_close t = Some (strip_brackets t2)).
Proof.
  induction t as [|d t IH]; simpl.
  - left; split; reflexivity.
  - destruct (Ascii.eqb d "]"%char) eqn:Hd.
    + right; exists EmptyString, t; split; [|reflexivity].
      apply Ascii.eqb_eq in Hd; subst; reflexivity.
    + destruct (is_line_term d) eqn:Hl.
      * left; split; [reflexivity|]; simpl; discriminate.
      * destruct IH as [[Hn Himp]|[t1 [t2 [Ht Hs]]]].
        -- left; split; [exact Hn|]; simpl.
           intros H; unfold not_close; rewrite Hd; simpl; exact (Himp H).
        -- right; exists (String d t1), t2; split; [rewrite Ht; reflexivity|exact Hs].
Qed.

(** strong induction on the length of the input of [strip_brackets] *)
Lemma strip_brackets_ind (P : string -> Prop) :
  P EmptyString ->
  (forall c r, (forall t, String.length t < S (String.length r) -> P t) -> P (String c r)) ->
  forall s, P s.
Proof.
  intros H0 HS.
  assert (Hn : forall n s, String.length s <= n -> P s).
  { induction n as [|n IH]; intros [|c r] Hle; simpl in Hle; try lia; auto.
    apply HS; intros t Ht; apply IH; lia. }
  intros s; exact (Hn _ s (le_n _)).
Qed.

Lemma length_app (a b : string) :
  String.length (a ++ b) = String.length a + String.length b.
Proof. induction a as [|c a IH]; simpl; [reflexivity|now rewrite IH]. Qed.

Lemma strip_brackets_chars (f : ascii -> bool) (s : string) :
  all_chars f s = true -> all_chars f (strip_brackets s) = true.
Proof.
  induction s as [|c r IH] using strip_brackets_ind; [reflexivity|].
  intros H; simpl in H; apply andb_prop in H as [Hc Hr].
  rewrite strip_brackets_cons.
  assert (Hr' : all_chars f (strip_brackets r) = true) by (apply IH; [lia|exact Hr]).
  destruct (Ascii.eqb c "["%char).
  - destruct (scan_close_spec r) as [[Hn _]|[t1 [t2 [Ht Hs]]]].
    + rewrite Hn; simpl; rewrite Hc, Hr'; reflexivity.
    + rewrite Hs; subst r.
      rewrite all_chars_app in Hr; simpl in Hr.
      repeat match type of Hr with
             | _ && _ = true => apply andb_prop in Hr as [_ Hr]
             end.
      apply IH; [rewrite length_app; simpl; lia|exact Hr].
  - simpl; rewrite Hc, Hr'; reflexivity.
Qed.

Lemma strip_brackets_no_pair (s : string) :
  all_chars (fun d => negb (is_line_term d)) s = true ->
  no_bracket_pair (strip_brackets s) = true.
Proof.
  induction s as [|c r IH] using strip_brackets_ind; [reflexivity|].
  intros H; simpl in H; apply andb_prop in H as [Hc Hr].
  rewrite strip_brackets_cons.
  assert (Hr' : no_bracket_pair (strip_brackets r) = true) by (apply IH; [lia|exact Hr]).
  destruct (Ascii.eqb c "["%char) eqn:Hb.
  - destruct (scan_close_spec r) as [[Hn Himp]|[t1 [t2 [Ht Hs]]]].
    + rewrite Hn; simpl; rewrite Hb, Hr'; simpl.
      rewrite (strip_brackets_chars _ _ (Himp Hr)); reflexivity.
    + rewrite Hs; subst r.
      rewrite all_chars_app in Hr; simpl in Hr.
      repeat match type of Hr with
             | _ && _ = true => apply andb_prop in Hr as [_ Hr]
             end.
      apply IH; [rewrite length_app; simpl; lia|exact Hr].
  - simpl; rewrite Hb, Hr'; reflexivity.
Qed.

Lemma line_term_not_space_only (c : ascii) :
  space_only c = true -> negb (is_line_term c) = true.
Proof.
  destruct c as [[] [] [] [] [] [] [] []]; vm_compute; intros H; first [reflexivity | discriminate H].
Qed.

Lemma collapse_ws_space_only (b : bool) (s : string) :
  all_chars space_only (collapse_ws b s) = true.
Proof.
  revert b; induction s as [|c r IH]; intros b; simpl; [reflexivity|].
  destruct (is_ws c) eqn:Hw; [destruct b|]; simpl; rewrite ?IH.
  - reflexivity.
  - reflexivity.
  - unfold space_only; rewrite Hw; reflexivity.
Qed.

Lemma trim_start_chars (f : ascii -> bool) (s : string) :
  all_chars f s = true -> all_chars f (trim_start s) = true.
Proof.
  induction s as [|c r IH]; simpl; [auto|].
  intros H; destruct (is_ws c); [apply IH; apply andb_prop in H; tauto|exact H].
Qed.

Lemma trim_start_no_pair (s : string) :
  no_bracket_pair s = true -> no_bracket_pair (trim_start s) = true.
Proof.
  induction s as [|c r IH]; simpl; [auto|].
  intros H; destruct (is_ws c); [apply IH; apply andb_prop in H; tauto|exact H].
Qed.

Lemma trim_end_chars (f : ascii -> bool) (s : string) :
  all_chars f s = true -> all_chars f (trim_end s) = true.
Proof.
  induction s as [|c r IH]; simpl; [auto|].
  intros H; apply andb_prop in H as [Hc Hr].
  specialize (IH Hr).
  destruct (trim_end r) as [|d r'] eqn:Ht.
  - destruct (is_ws c); simpl; rewrite ?Hc; reflexivity.
  - simpl; rewrite Hc; exact IH.
Qed.

Lemma trim_end_no_pair (s : string) :
  no_bracket_pair s = true -> no_bracket_pair (trim_end s) = true.
Proof.
  induction s as [|c r IH]; simpl; [auto|].
  intros H; apply andb_prop in H as [Hc Hr].
  specialize (IH Hr).
  destruct (trim_end r) as [|d r'] eqn:Ht.
  - destruct (is_ws c); simpl; rewrite ?orb_true_r; reflexivity.
  - change (no_bracket_pair (String c (String d r')))
      with ((negb (Ascii.eqb c "["%char) || all_chars not_close (String d r'))
            && no_bracket_pair (String d r')).
    rewrite IH, andb_true_r.
    destruct (Ascii.eqb c "["%char); [|reflexivity].
    change (all_chars not_close (String d r') = true).
    simpl in Hc; rewrite <- Ht; apply trim_end_chars; exact Hc.
Qed.

Lemma trim_start_not_ws (s : string) : starts_with_ws (trim_start s) = false.
Proof.
  induction s as [|c r IH]; simpl; [reflexivity|].
  destruct (is_ws c) eqn:Hw; [exact IH|exact Hw].
Qed.

Lemma trim_end_keeps_start (s : string) :
  starts_with_ws s = false -> starts_with_ws (trim_end s) = false.
Proof.
  destruct s as [|c r]; simpl; [auto|intros Hw].
  destruct (trim_end r); [rewrite Hw|]; exact Hw.
Qed.

Lemma trim_end_not_ws (s : string) : ends_with_ws (trim_end s) = false.
Proof.
  induction s as [|c r IH]; simpl; [reflexivity|].
  destruct (trim_end r) as [|d r'] eqn:Ht.
  - destruct (is_ws c) eqn:Hw; [reflexivity|exact Hw].
  - exact IH.
Qed.

Lemma parseSrtToText_normal (srt : string) :
  no_bracket_pair (parseSrtToText srt) = true
  /\ all_chars space_only (parseSrtToText srt) = true
  /\ starts_with_ws (parseSrtToText srt) = false
  /\ ends_with_ws (parseSrtToText srt) = false.
Proof.
  unfold parseSrtToText, trim.
  set (x := collapse_ws false _).
  assert (Hx : all_chars space_only x = true) by apply collapse_ws_space_only.
  split; [|split; [|split]].
  - apply trim_end_no_pair, trim_start_no_pair, strip_brackets_no_pair.
    exact (all_chars_impl _ _ _ line_term_not_space_only Hx).
  - apply trim_end_chars, trim_start_chars, strip_brackets_chars; exact Hx.
  - apply trim_end_keeps_start, trim_start_not_ws.
  - apply trim_end_not_ws.
Qed.

Lemma assembly_post_captions_ok (E : env) (url vid : string) (segs : list string) (w : world) :
  extractVideoId url = Some vid ->
  captions_of E vid = Ok segs ->
  is_blank (join " " segs) = false ->
  AnalyzeAssembly.POST E (Some url) w =
  match analyze_and_respond E vid (join " " segs) "captions"
          (mkWorld (fs w) (calls w ++ [CallCaptions vid])) with
  | (Ok r, w3) => (Ok r, w3)
  | (Thrown _, w3) => (Ok (internal_error "An error occurred processing the video"), w3)
  end.
Proof.
  intros Hext Hcap Hnb.
  destruct url as [|c r]; [discriminate Hext|].
  cbv beta iota delta [AnalyzeAssembly.POST].
  rewrite Hext.
  cbv beta iota delta [try_catch bind fetchTranscript log_call ret throw].
  rewrite Hcap; simpl; rewrite Hnb.
  destruct (analyze_and_respond E vid _ "captions" _) as [[r'|e''] w3]; reflexivity.
Qed.

(** both [/api/analyze] routes forward the captions text as joined, with
    only the length cap applied *)
Lemma captions_forwarded_raw (E : env) (url vid : string) (segs : list string) (w : world) :
  extractVideoId url = Some vid ->
  captions_of E vid = Ok segs ->
  is_blank (join " " segs) = false ->
  calls (snd (AnalyzeYtDlp.POST E (Some url) w)) =
    calls w ++ [CallCaptions vid; CallLLM (truncateTranscript (join " " segs))]
  /\ calls (snd (AnalyzeAssembly.POST E (Some url) w)) =
    calls w ++ [CallCaptions vid; CallLLM (truncateTranscript (join " " segs))].
Proof.
  intros Hext Hcap Hnb.
  rewrite (ytdlp_post_captions_ok E url vid segs w Hext Hcap Hnb),
          (assembly_post_captions_ok E url vid segs w Hext Hcap Hnb),
          analyze_and_respond_eq.
  simpl; rewrite <- app_assoc.
  destruct (llm_of E _); simpl; split; reflexivity.
Qed.

Lemma audio_checks_pass (f : TranscribeAudio.audio_file) :
  audio_accepted f = true ->
  (negb (existsb (String.eqb (TranscribeAudio.type f)) TranscribeAudio.validTypes)
   && negb (TranscribeAudio.has_audio_extension (TranscribeAudio.name f))) = false
  /\ (TranscribeAudio.maxSize <? TranscribeAudio.size f)%N = false.
Proof.
  unfold audio_accepted; intros H; apply andb_prop in H as [Ht Hs]; split.
  - destruct (existsb _ _), (TranscribeAudio.has_audio_extension _); simpl in *;
      congruence.
  - apply N.ltb_ge, N.leb_le, Hs.
Qed.

(** run an accepted upload up to the external calls *)
Ltac run_accepted_audio Hkey Hacc :=
  let H1 := fresh "Hty" in
  let H2 := fresh "Hsz" in
  destruct (audio_checks_pass _ Hacc) as [H1 H2];
  cbv beta iota zeta delta [TranscribeAudio.POST]; rewrite Hkey; cbn [negb];
  rewrite H1, H2;
  cbv beta iota zeta delta [try_catch bind ret throw assembly_upload assembly_transcribe
    log_call check_assembly_transcript analyzeWithAI].

(** the AssemblyAI version forwards an AssemblyAI transcript as returned,
    with only the length cap applied *)
Lemma assembly_transcript_forwarded_raw (E : env) (url vid text : string) (t : assembly_transcript)
    (w : world) :
  extractVideoId url = Some vid ->
  captions_fail E vid ->
  truthy (assemblyai_key E) = true ->
  assembly_of E url = Ok t ->
  String.eqb (at_status t) "error" = false ->
  at_text t = Some text ->
  text <> EmptyString ->
  calls (snd (AnalyzeAssembly.POST E (Some url) w)) =
    calls w ++ [CallCaptions vid; CallAssembly url; CallLLM (truncateTranscript text)].
Proof.
  intros Hext Hf Hk Hasm Hst Htx Hne.
  rewrite (assembly_post_captions_fail E url vid w Hext Hf); cbv zeta.
  rewrite Hk; cbn [negb].
  cbv beta iota zeta delta [AnalyzeAssembly.transcribeWithAssemblyAI assembly_transcribe
    bind log_call check_assembly_transcript throw ret].
  rewrite Hasm; cbn beta iota; rewrite Hst, Htx.
  destruct text as [|c r]; [contradiction|].
  cbn beta iota; rewrite analyze_and_respond_eq.
  destruct (llm_of E _); simpl; rewrite <- !app_assoc; reflexivity.
Qed.

(** [/api/transcribe-audio] forwards the AssemblyAI transcript as
    returned, with only the length cap applied *)
Lemma audio_transcript_forwarded_raw (E : env) (f : TranscribeAudio.audio_file) (w : world)
    (url text : string) (t : assembly_transcript) :
  truthy (assemblyai_key E) = true ->
  audio_accepted f = true ->
  upload_of E (TranscribeAudio.name f) = Ok url ->
  assembly_of E url = Ok t ->
  String.eqb (at_status t) "error" = false ->
  at_text t = Some text ->
  text <> EmptyString ->
  calls (snd (TranscribeAudio.POST E (Some f) w)) =
    calls w ++ [CallUpload (TranscribeAudio.name f); CallAssembly url;
                CallLLM (truncateTranscript text)].
Proof.
  intros Hk Hacc Hup Hasm Hst Htx Hne.
  run_accepted_audio Hk Hacc.
  rewrite Hup; cbn beta iota; rewrite Hasm; cbn beta iota.
  rewrite Hst, Htx.
  destruct text as [|c r]; [contradiction|].
  cbn beta iota; destruct (llm_of E _); simpl; rewrite <- !app_assoc; reflexivity.
Qed.

(** C5 (amended): normalization is done only by the subtitle-download
    strategy: the text returned by [parseSrtToText] contains no ['['] with a
    [']'] after it, uses no whitespace character other than the plain space,
    and neither starts nor ends with whitespace.  The captions strategy
    forwards its space-joined segment text to the model unnormalized (only
    the length cap applies), and so do the two AssemblyAI paths: the
    ["audio-transcription"] fallback of [/api/analyze] and the
    ["audio-upload"] route forward AssemblyAI's transcript text as
    returned, with only the length cap applied. *)
Theorem normalization_subtitle_path_only :
  (forall srt : string,
     no_bracket_pair (parseSrtToText srt) = true
     /\ all_chars space_only (parseSrtToText srt) = true
     /\ starts_with_ws (parseSrtToText srt) = false
     /\ ends_with_ws (parseSrtToText srt) = false)
  /\ (forall (E : env) (url vid : string) (segs : list string) (w : world),
        extractVideoId url = Some vid ->
        captions_of E vid = Ok segs ->
        is_blank (join " " segs) = false ->
        calls (snd (AnalyzeYtDlp.POST E (Some url) w)) =
          calls w ++ [CallCaptions vid; CallLLM (truncateTranscript (join " " segs))]
        /\ calls (snd (AnalyzeAssembly.POST E (Some url) w)) =
          calls w ++ [CallCaptions vid; CallLLM (truncateTranscript (join " " segs))])
  /\ (forall (E : env) (url vid text : string) (t : assembly_transcript) (w : world),
        extractVideoId url = Some vid ->
        captions_fail E vid ->
        truthy (assemblyai_key E) = true ->
        assembly_of E url = Ok t ->
        String.eqb (at_status t) "error" = false ->
        at_text t = Some text ->
        text <> EmptyString ->
        calls (snd (AnalyzeAssembly.POST E (Some url) w)) =
          calls w ++ [CallCaptions vid; CallAssembly url; CallLLM (truncateTranscript text)])
  /\ (forall (E : env) (f : TranscribeAudio.audio_file) (w : world) (url text : string)
        (t : assembly_transcript),
        truthy (assemblyai_key E) = true ->
        audio_accepted f = true ->
        upload_of E (TranscribeAudio.name f) = Ok url ->
        assembly_of E url = Ok t ->
        String.eqb (at_status t) "error" = false ->
        at_text t = Some text ->
        text <> EmptyString ->
        calls (snd (TranscribeAudio.POST E (Some f) w)) =
          calls w ++ [CallUpload (TranscribeAudio.name f); CallAssembly url;
                      CallLLM (truncateTranscript text)]).
Proof.
  split; [|split; [|split]].
  - exact parseSrtToText_normal.
  - exact captions_forwarded_raw.
  - exact assembly_transcript_forwarded_raw.
  - exact audio_transcript_forwarded_raw.
Qed.

Lemma normalization_subtitle_path_only_witness :
  extractVideoId demo_url = Some demo_id
  /\ calls (snd (AnalyzeYtDlp.POST music_env (Some demo_url) world0)) =
     calls world0 ++ [CallCaptions demo_id;
                      CallLLM (truncateTranscript (join " " ["Hello [Music] world"]))]
  /\ calls (snd (AnalyzeAssembly.POST music_assembly_env (Some demo_url) world0)) =
     calls world0 ++ [CallCaptions demo_id; CallAssembly demo_url;
                      CallLLM (truncateTranscript "Hello [Music] world")]
  /\ calls (snd (TranscribeAudio.POST music_audio_env (Some demo_audio) world0)) =
     calls world0 ++ [CallUpload "Talk.MP3"; CallAssembly "https://cdn/upload";
                      CallLLM (truncateTranscript "Hello [Music] world")].
Proof.
  split; [reflexivity|split; [|split]].
  - exact (proj1 (proj1 (proj2 normalization_subtitle_path_only) music_env demo_url demo_id
                  ["Hello [Music] world"] world0 eq_refl eq_refl eq_refl)).
  - exact (proj1 (proj2 (proj2 normalization_subtitle_path_only)) music_assembly_env
             demo_url demo_id "Hello [Music] world" _ world0 eq_refl I eq_refl eq_refl
             eq_refl eq_refl ltac:(discriminate)).
  - exact (proj2 (proj2 (proj2 normalization_subtitle_path_only)) music_audio_env demo_audio
             world0 "https://cdn/upload" "Hello [Music] world" _ eq_refl
             ltac:(vm_compute; reflexivity) eq_refl eq_refl eq_refl eq_refl ltac:(discriminate)).
Defined.

(** counterexample to C5 as stated: a captions success forwards
    ["Hello [Music] world"] to the model with the annotation in place *)
Lemma captions_not_normalized_counterexample :
  AnalyzeYtDlp.POST music_env (Some demo_url) world0 =
  (Ok (Json200 (mkAnalyzeBody demo_id 19 "captions" "analysis")),
   mkWorld [] [CallCaptions demo_id; CallLLM "Hello [Music] world"]).
Proof. vm_compute; reflexivity. Qed.

(** ** No entity decoding *)

Lemma string_app_nil_r (s : string) : (s ++ EmptyString)%string = s.
Proof. induction s as [|c s IH]; simpl; [reflexivity|now rewrite IH]. Qed.

Lemma split_nl_acc_no_nl (cur s : string) :
  all_chars (fun c => negb (Ascii.eqb c "010"%char)) s = true ->
  split_nl_acc cur s = [(cur ++ s)%string].
Proof.
  revert cur; induction s as [|c r IH]; intros cur H; simpl in *.
  - now rewrite string_app_nil_r.
  - apply andb_prop in H as [Hc Hr].
    destruct (Ascii.eqb c "010"%char); [discriminate|].
    rewrite IH by exact Hr.
    f_equal; clear; induction cur as [|d cur IHc]; simpl; [reflexivity|now rewrite IHc].
Qed.


Lemma trim_start_no_ws (s : string) :
  all_chars (fun c => negb (is_ws c)) s = true -> trim_start s = s.
Proof.
  destruct s as [|c r]; simpl; [reflexivity|].
  intros H; apply andb_prop in H as [Hc _].
  destruct (is_ws c); [discriminate|reflexivity].
Qed.

Lemma trim_end_no_ws (s : string) :
  all_chars (fun c => negb (is_ws c)) s = true -> trim_end s = s.
Proof.
  induction s as [|c r IH]; simpl; [reflexivity|].
  intros H; apply andb_prop in H as [Hc Hr].
  rewrite (IH Hr).
  destruct r; [|reflexivity].
  destruct (is_ws c); [discriminate|reflexivity].
Qed.

Lemma collapse_ws_no_ws (b : bool) (s : string) :
  all_chars (fun c => negb (is_ws c)) s = true -> collapse_ws b s = s.
Proof.
  revert b; induction s as [|c r IH]; intros b H; simpl in *; [reflexivity|].
  apply andb_prop in H as [Hc Hr].
  destruct (is_ws c); [discriminate|].
  now rewrite IH.
Qed.

Lemma strip_brackets_no_open (s : string) :
  all_chars (fun c => negb (Ascii.eqb c "["%char)) s = true -> strip_brackets s = s.
Proof.
  induction s as [|c r IH]; [reflexivity|].
  intros H; simpl in H; apply andb_prop in H as [Hc Hr].
  rewrite strip_brackets_cons.
  destruct (Ascii.eqb c "["%char); [discriminate|].
  now rewrite IH.
Qed.

(** C6 (amended): normalization performs no HTML-entity decoding.  A
    subtitle text line without whitespace or ['['] that is neither a
    sequence number nor a timestamp comes out of [parseSrtToText]
    unchanged, entities included. *)
Theorem no_entity_decoding (s : string) :
  all_chars plain_char s = true ->
  s <> EmptyString ->
  is_sequence_number s = false ->
  is_timestamp_line s = false ->
  parseSrtToText s = s.
Proof.
  intros Hp Hne Hseq Hts.
  assert (Hws : all_chars (fun c => negb (is_ws c)) s = true).
  { apply (all_chars_impl plain_char); [|exact Hp].
    intros c; unfold plain_char; intros H; apply andb_prop in H; tauto. }
  assert (Hnl : all_chars (fun c => negb (Ascii.eqb c "010"%char)) s = true).
  { apply (all_chars_impl plain_char); [|exact Hp].
    intros c; unfold plain_char.
    destruct (Ascii.eqb c "010"%char) eqn:Hc; [|reflexivity].
    apply Ascii.eqb_eq in Hc; subst; discriminate. }
  assert (Hopen : all_chars (fun c => negb (Ascii.eqb c "["%char)) s = true).
  { apply (all_chars_impl plain_char); [|exact Hp].
    intros c; unfold plain_char; intros H; apply andb_prop in H; tauto. }
  assert (Htrim : trim s = s).
  { unfold trim; rewrite (trim_start_no_ws s Hws); exact (trim_end_no_ws s Hws). }
  unfold parseSrtToText, split_nl.
  rewrite (split_nl_acc_no_nl EmptyString s Hnl); simpl.
  rewrite Htrim.
  destruct (String.eqb s "") eqn:He; [apply String.eqb_eq in He; contradiction|].
  rewrite Hseq, Hts; simpl.
  rewrite (collapse_ws_no_ws false s Hws), (strip_brackets_no_open s Hopen).
  exact Htrim.
Qed.

Lemma no_entity_decoding_witness :
  all_chars plain_char "AT&amp;amp;T" = true
  /\ is_sequence_number "AT&amp;amp;T" = false
  /\ is_timestamp_line "AT&amp;amp;T" = false
  /\ parseSrtToText "AT&amp;amp;T" = "AT&amp;amp;T".
Proof.
  split; [reflexivity|split; [reflexivity|split; [reflexivity|]]].
  apply no_entity_decoding; [reflexivity|discriminate|reflexivity|reflexivity].
Defined.

(** counterexample to C6 as stated: ["AT&amp;amp;T"] is not decoded *)
Lemma entity_not_decoded_counterexample :
  parseSrtToText "AT&amp;amp;T" = "AT&amp;amp;T" /\ parseSrtToText "AT&amp;amp;T" <> "AT&T".
Proof. split; [vm_compute; reflexivity|vm_compute; discriminate]. Qed.

(** ** [extractVideoId] *)

Lemma match_url_pattern_eq (s : string) :
  match_url_pattern s =
  match match_alternatives url_alternatives s with
  | Some g => Some g
  | None => match s with
            | EmptyString => None
            | String _ r => match_url_pattern r
            end
  end.
Proof. destruct s; reflexivity. Qed.

Lemma strip_prefix_chars (f : ascii -> bool) (p s r : string) :
  strip_prefix p s = Some r -> all_chars f s = true -> all_chars f p = true.
Proof.
  revert s; induction p as [|a p IH]; intros s Hp Hs; [reflexivity|].
  destruct s as [|b s]; simpl in Hp; [discriminate|].
  destruct (Ascii.eqb a b) eqn:Hab; [|discriminate].
  apply Ascii.eqb_eq in Hab; subst b.
  simpl in Hs |- *; apply andb_prop in Hs as [Ha Hs].
  rewrite Ha; exact (IH s Hp Hs).
Qed.

Lemma match_alternatives_none (alts : list string) (s : string) :
  (forall p, In p alts -> strip_prefix p s = None) -> match_alternatives alts s = None.
Proof.
  induction alts as [|p ps IH]; intros H; simpl; [reflexivity|].
  rewrite (H p (or_introl eq_refl)).
  apply IH; intros q Hq; apply H; right; exact Hq.
Qed.

(** no string of identifier characters matches the URL pattern: every
    URL alternative contains ['.'] and ['/'] *)
Lemma id_chars_no_url_match (s : string) :
  all_chars is_id_char s = true -> match_url_pattern s = None.
Proof.
  induction s as [|c r IH]; intros H; rewrite match_url_pattern_eq;
    rewrite match_alternatives_none.
  - reflexivity.
  - intros p Hp; simpl in Hp; destruct Hp as [<-|[<-|[<-|[]]]]; reflexivity.
  - simpl in H; apply andb_prop in H as [_ Hr]; exact (IH Hr).
  - intros p Hp.
    destruct (strip_prefix p (String c r)) as [x|] eqn:Hx; [|reflexivity].
    pose proof (strip_prefix_chars is_id_char p _ x Hx H) as Hpc.
    simpl in Hp; destruct Hp as [<-|[<-|[<-|[]]]]; discriminate Hpc.
Qed.

Lemma take_id_no_delim (s : string) :
  all_chars (fun c => negb (is_id_delim c)) (take_id s) = true.
Proof.
  induction s as [|c r IH]; simpl; [reflexivity|].
  destruct (is_id_delim c) eqn:Hd; simpl; [reflexivity|].
  rewrite Hd; exact IH.
Qed.

Lemma match_alternatives_shape (alts : list string) (s g : string) :
  match_alternatives alts s = Some g ->
  g <> EmptyString /\ all_chars (fun c => negb (is_id_delim c)) g = true.
Proof.
  induction alts as [|p ps IH]; simpl; [discriminate|].
  destruct (strip_prefix p s) as [[|c r]|]; try exact IH.
  destruct (is_id_delim c) eqn:Hd; [exact IH|].
  intros H; injection H as <-.
  split.
  - simpl; try rewrite Hd; discriminate.
  - simpl; rewrite ?Hd; simpl; apply take_id_no_delim.
Qed.

Lemma match_url_pattern_shape (s g : string) :
  match_url_pattern s = Some g ->
  g <> EmptyString /\ all_chars (fun c => negb (is_id_delim c)) g = true.
Proof.
  induction s as [|c r IH]; rewrite match_url_pattern_eq;
    destruct (match_alternatives url_alternatives _) as [g'|] eqn:Ha.
  - intros H; injection H as <-; exact (match_alternatives_shape _ _ _ Ha).
  - discriminate.
  - intros H; injection H as <-; exact (match_alternatives_shape _ _ _ Ha).
  - exact IH.
Qed.

(** C7: [extractVideoId] returns the group of the URL pattern (watch,
    short-link and embed forms) whenever it matches, falls back to the bare
    11-character pattern only when it does not, and rejects the input when
    neither matches; an input accepted by the bare pattern is never matched
    by the URL pattern, and is returned as is. *)
Theorem extractVideoId_priority (url : string) :
  (forall m, match_url_pattern url = Some m -> extractVideoId url = Some m)
  /\ (match_url_pattern url = None -> extractVideoId url = match_bare_pattern url)
  /\ (match_url_pattern url = None -> match_bare_pattern url = None -> extractVideoId url = None)
  /\ (forall m, match_bare_pattern url = Some m ->
        match_url_pattern url = None /\ extractVideoId url = Some url).
Proof.
  unfold extractVideoId.
  split; [|split; [|split]].
  - intros m ->; reflexivity.
  - intros ->; destruct (match_bare_pattern url); reflexivity.
  - intros -> ->; reflexivity.
  - intros m Hb.
    assert (Hc : all_chars is_id_char url = true).
    { unfold match_bare_pattern in Hb.
      destruct (all_chars is_id_char url); [reflexivity|].
      rewrite andb_false_r in Hb; discriminate. }
    rewrite (id_chars_no_url_match url Hc), Hb; split; [reflexivity|].
    unfold match_bare_pattern in Hb.
    destruct (_ && _); [congruence|discriminate].
Qed.

Lemma extractVideoId_priority_witness :
  extractVideoId "https://www.youtube.com/watch?v=dQw4w9WgXcQ&t=42" = Some "dQw4w9WgXcQ"
  /\ extractVideoId "https://www.youtube.com/embed/dQw4w9WgXcQ" = Some "dQw4w9WgXcQ"
  /\ extractVideoId demo_url = Some demo_id
  /\ match_url_pattern demo_id = None /\ extractVideoId demo_id = Some demo_id.
Proof.
  split; [exact (proj1 (extractVideoId_priority
                   "https://www.youtube.com/watch?v=dQw4w9WgXcQ&t=42") "dQw4w9WgXcQ" eq_refl)|].
  split; [exact (proj1 (extractVideoId_priority
                   "https://www.youtube.com/embed/dQw4w9WgXcQ") "dQw4w9WgXcQ" eq_refl)|].
  split; [exact (proj1 (extractVideoId_priority demo_url) demo_id eq_refl)|].
  exact (proj2 (proj2 (proj2 (extractVideoId_priority demo_id))) demo_id eq_refl).
Defined.

Lemma strip_prefix_eq (p s x : string) : strip_prefix p s = Some x -> s = (p ++ x)%string.
Proof.
  revert s; induction p as [|a p IH]; intros s H; simpl in H.
  - injection H as ->; reflexivity.
  - destruct s as [|b s]; [discriminate|].
    destruct (Ascii.eqb a b) eqn:Hab; [|discriminate].
    apply Ascii.eqb_eq in Hab; subst b; simpl; f_equal; exact (IH s H).
Qed.

(** the greedy group stops at the end or at a delimiter *)
Lemma take_id_split (s : string) :
  exists rest, s = (take_id s ++ rest)%string
    /\ match rest with EmptyString => True | String c _ => is_id_delim c = true end.
Proof.
  induction s as [|c r IH]; [exists EmptyString; split; reflexivity|].
  simpl; destruct (is_id_delim c) eqn:Hd.
  - exists (String c r); split; [reflexivity|exact Hd].
  - destruct IH as [rest [Hr Hok]]; exists rest; split; [simpl; f_equal; exact Hr|exact Hok].
Qed.

Lemma match_alternatives_split (alts : list string) (s g : string) :
  match_alternatives alts s = Some g ->
  exists alt rest, In alt alts /\ s = (alt ++ g ++ rest)%string
    /\ match rest with EmptyString => True | String c _ => is_id_delim c = true end.
Proof.
  induction alts as [|p ps IH]; simpl; [discriminate|].
  destruct (strip_prefix p s) as [[|c r]|] eqn:Hp;
    try (intros H; destruct (IH H) as (alt & rest & Hin & Hs & Hok);
         exists alt, rest; auto; fail).
  destruct (is_id_delim c) eqn:Hd.
  - intros H; destruct (IH H) as (alt & rest & Hin & Hs & Hok); exists alt, rest; auto.
  - intros H; injection H as <-.
    destruct (take_id_split (String c r)) as [rest [Hr Hok]].
    exists p, rest; split; [left; reflexivity|split; [|exact Hok]].
    rewrite (strip_prefix_eq p s _ Hp); f_equal.
    simpl in Hr; rewrite Hd in Hr; exact Hr.
Qed.

Lemma match_url_pattern_split (s g : string) :
  match_url_pattern s = Some g ->
  exists pre alt rest, In alt url_alternatives /\ s = (pre ++ alt ++ g ++ rest)%string
    /\ match rest with EmptyString => True | String c _ => is_id_delim c = true end.
Proof.
  induction s as [|c r IH]; rewrite match_url_pattern_eq;
    destruct (match_alternatives url_alternatives _) as [g'|] eqn:Ha.
  - intros H; injection H as <-.
    destruct (match_alternatives_split _ _ _ Ha) as (alt & rest & Hin & Hs & Hok).
    exists EmptyString, alt, rest; auto.
  - discriminate.
  - intros H; injection H as <-.
    destruct (match_alternatives_split _ _ _ Ha) as (alt & rest & Hin & Hs & Hok).
    exists EmptyString, alt, rest; auto.
  - intros H; destruct (IH H) as (pre & alt & rest & Hin & Hs & Hok).
    exists (String c pre), alt, rest; split; [exact Hin|split; [simpl; f_equal; exact Hs|exact Hok]].
Qed.

(** C8 (amended): an identifier returned by [extractVideoId] is non-empty
    and contains none of [&], [?], [#], newline.  When a watch, short-link
    or embed form matches, the URL splits as some text, one of the three
    URL prefixes, the identifier, and a rest that is empty or starts with
    a delimiter: the identifier is the text after that prefix up to the
    first delimiter, of any length.  The identifier is the input itself, of
    11 characters from [[A-Za-z0-9_-]], only when the URL pattern does not
    match. *)
Theorem extractVideoId_shape (url vid : string) :
  extractVideoId url = Some vid ->
  vid <> EmptyString
  /\ all_chars (fun c => negb (is_id_delim c)) vid = true
  /\ (match_url_pattern url = None ->
        vid = url /\ String.length vid = 11 /\ all_chars is_id_char vid = true)
  /\ (match_url_pattern url = Some vid ->
        exists pre alt rest, In alt url_alternatives
          /\ url = (pre ++ alt ++ vid ++ rest)%string
          /\ match rest with EmptyString => True | String c _ => is_id_delim c = true end).
Proof.
  unfold extractVideoId.
  destruct (match_url_pattern url) as [g|] eqn:Hu.
  - intros H; injection H as <-.
    destruct (match_url_pattern_shape url g Hu) as [Hne Hd].
    split; [exact Hne|split; [exact Hd|split; [discriminate|]]].
    intros _; exact (match_url_pattern_split url g Hu).
  - unfold match_bare_pattern.
    destruct ((String.length url =? 11)%nat && all_chars is_id_char url) eqn:Hc;
      [|discriminate].
    intros H; injection H as <-.
    apply andb_prop in Hc as [Hl Hc]; apply Nat.eqb_eq in Hl.
    split; [intros ->; discriminate Hl|].
    split.
    + apply (all_chars_impl is_id_char); [|exact Hc].
      intros c; destruct c as [[] [] [] [] [] [] [] []]; vm_compute;
        intros H; first [reflexivity | discriminate H].
    + split; [intros _; split; [reflexivity|split; assumption]|discriminate].
Qed.

Lemma extractVideoId_shape_witness :
  (extractVideoId demo_id = Some demo_id /\ String.length demo_id = 11)
  /\ (extractVideoId "https://youtu.be/abc?t=1" = Some "abc"
      /\ exists pre alt rest, In alt url_alternatives
           /\ "https://youtu.be/abc?t=1" = (pre ++ alt ++ "abc" ++ rest)%string
           /\ match rest with EmptyString => True | String c _ => is_id_delim c = true end).
Proof.
  split; (split; [vm_compute; reflexivity|]).
  - exact (proj1 (proj2 (proj1 (proj2 (proj2 (extractVideoId_shape demo_id demo_id eq_refl)))
                    eq_refl))).
  - exact (proj2 (proj2 (proj2 (extractVideoId_shape "https://youtu.be/abc?t=1" "abc"
             ltac:(vm_compute; reflexivity))))
             ltac:(vm_compute; reflexivity)).
Defined.

(** counterexample to C8 as stated: a short-link with a 3-character path
    yields a 3-character identifier *)
Lemma short_identifier_counterexample :
  extractVideoId "https://youtu.be/abc" = Some "abc" /\ String.length "abc" <> 11.
Proof. split; [vm_compute; reflexivity|discriminate]. Qed.

(** ** Source tags of successful responses *)

Lemma analyze_and_respond_source (E : env) (vid t src : string) (w : world) (b : analyze_body) :
  fst (analyze_and_respond E vid t src w) = Ok (Json200 b) -> transcriptSource b = src.
Proof.
  rewrite analyze_and_respond_eq; destruct (llm_of E _); simpl; [|discriminate].
  intros H; injection H as <-; reflexivity.
Qed.

(** case analysis on the outcome of a handler step inside a hypothesis *)
Ltac split_outcomes H :=
  repeat match type of H with
         | context [match ?x with _ => _ end] =>
             let o := fresh "o" in
             destruct x as [?o|?o] eqn:?; simpl in H; try discriminate H
         end.

Lemma ytdlp_post_sources (E : env) (req : option string) (w : world) (b : analyze_body) :
  fst (AnalyzeYtDlp.POST E req w) = Ok (Json200 b) ->
  transcriptSource b = "captions" \/ transcriptSource b = "yt-dlp-captions".
Proof.
  destruct req as [[|c r]|]; [intros H; discriminate H| |intros H; discriminate H].
  destruct (extractVideoId (String c r)) as [vid|] eqn:Hext.
  2:{ cbv beta iota delta [AnalyzeYtDlp.POST]; rewrite Hext; intros H; discriminate H. }
  destruct (captions_of E vid) as [segs|e] eqn:Hcap.
  - destruct (is_blank (join " " segs)) eqn:Hb.
    + assert (Hf : captions_fail E vid) by (unfold captions_fail; now rewrite Hcap).
      rewrite (ytdlp_post_captions_fail E _ vid w Hext Hf).
      destruct (AnalyzeYtDlp.fetchWithYtDlp E vid _) as [[t|e] w2]; [|discriminate].
      destruct (analyze_and_respond E vid t "yt-dlp-captions" w2) as [[resp|e'] w3] eqn:Ha;
        simpl; [|discriminate].
      intros H; injection H as ->; right.
      apply (analyze_and_respond_source E vid t _ w2); rewrite Ha; reflexivity.
    + rewrite (ytdlp_post_captions_ok E _ vid segs w Hext Hcap Hb).
      destruct (analyze_and_respond E vid _ "captions" _) as [[resp|e'] w3] eqn:Ha;
        simpl; [|discriminate].
      intros H; injection H as ->; left.
      eapply analyze_and_respond_source; rewrite Ha; reflexivity.
  - assert (Hf : captions_fail E vid) by (unfold captions_fail; now rewrite Hcap).
    rewrite (ytdlp_post_captions_fail E _ vid w Hext Hf).
    destruct (AnalyzeYtDlp.fetchWithYtDlp E vid _) as [[t|e'] w2]; [|discriminate].
    destruct (analyze_and_respond E vid t "yt-dlp-captions" w2) as [[resp|e''] w3] eqn:Ha;
      simpl; [|discriminate].
    intros H; injection H as ->; right.
    apply (analyze_and_respond_source E vid t _ w2); rewrite Ha; reflexivity.
Qed.

Lemma assembly_post_sources (E : env) (req : option string) (w : world) (b : analyze_body) :
  fst (AnalyzeAssembly.POST E req w) = Ok (Json200 b) ->
  transcriptSource b = "captions" \/ transcriptSource b = "audio-transcription".
Proof.
  destruct req as [[|c r]|]; [intros H; discriminate H| |intros H; discriminate H].
  destruct (extractVideoId (String c r)) as [vid|] eqn:Hext.
  2:{ cbv beta iota delta [AnalyzeAssembly.POST]; rewrite Hext; intros H; discriminate H. }
  assert (Hfail : captions_fail E vid ->
                  fst (AnalyzeAssembly.POST E (Some (String c r)) w) = Ok (Json200 b) ->
                  transcriptSource b = "audio-transcription").
  { intros Hf; rewrite (assembly_post_captions_fail E _ vid w Hext Hf); simpl.
    destruct (truthy (assemblyai_key E)); simpl; [|discriminate].
    destruct (AnalyzeAssembly.transcribeWithAssemblyAI E _ _) as [[t|e] w2]; [|discriminate].
    destruct (analyze_and_respond E vid t "audio-transcription" w2) as [[resp|e'] w3] eqn:Ha;
      simpl; [|discriminate].
    intros H; injection H as ->.
    apply (analyze_and_respond_source E vid t _ w2); rewrite Ha; reflexivity. }
  destruct (captions_of E vid) as [segs|e] eqn:Hcap.
  - destruct (is_blank (join " " segs)) eqn:Hb.
    + intros H; right; apply Hfail; [unfold captions_fail; now rewrite Hcap|exact H].
    + rewrite (assembly_post_captions_ok E _ vid segs w Hext Hcap Hb).
      destruct (analyze_and_respond E vid _ "captions" _) as [[resp|e'] w3] eqn:Ha;
        simpl; [|discriminate].
      intros H; injection H as ->; left.
      eapply analyze_and_respond_source; rewrite Ha; reflexivity.
  - intros H; right; apply Hfail; [unfold captions_fail; now rewrite Hcap|exact H].
Qed.

Lemma audio_post_source (E : env) (audio : option TranscribeAudio.audio_file) (w : world)
    (b : TranscribeAudio.upload_body) :
  fst (TranscribeAudio.POST E audio w) = Ok (TranscribeAudio.Json200 b) ->
  TranscribeAudio.transcriptSource b = "audio-upload".
Proof.
  intros H.
  cbv beta iota zeta delta [TranscribeAudio.POST try_catch bind ret throw assembly_upload
    assembly_transcribe log_call check_assembly_transcript analyzeWithAI] in H.
  simpl in H.
  split_outcomes H.
  all: injection H as <-; reflexivity.
Qed.

(** C9 (amended): the [transcriptSource] of a successful response is
    ["captions"] or ["yt-dlp-captions"] in the yt-dlp version of
    [/api/analyze], ["captions"] or ["audio-transcription"] in its AssemblyAI
    version, and ["audio-upload"] in [/api/transcribe-audio]. *)
Theorem transcriptSource_values :
  (forall E req w b, fst (AnalyzeYtDlp.POST E req w) = Ok (Json200 b) ->
     transcriptSource b = "captions" \/ transcriptSource b = "yt-dlp-captions")
  /\ (forall E req w b, fst (AnalyzeAssembly.POST E req w) = Ok (Json200 b) ->
     transcriptSource b = "captions" \/ transcriptSource b = "audio-transcription")
  /\ (forall E audio w b, fst (TranscribeAudio.POST E audio w) = Ok (TranscribeAudio.Json200 b) ->
     TranscribeAudio.transcriptSource b = "audio-upload").
Proof.
  split; [exact ytdlp_post_sources|split; [exact assembly_post_sources|exact audio_post_source]].
Qed.

Lemma transcriptSource_values_witness :
  fst (AnalyzeYtDlp.POST alt_env (Some demo_url) world0) =
    Ok (Json200 (mkAnalyzeBody demo_id 11 "yt-dlp-captions" "analysis"))
  /\ (transcriptSource (mkAnalyzeBody demo_id 11 "yt-dlp-captions" "analysis") = "captions"
      \/ transcriptSource (mkAnalyzeBody demo_id 11 "yt-dlp-captions" "analysis") = "yt-dlp-captions").
Proof.
  assert (H : fst (AnalyzeYtDlp.POST alt_env (Some demo_url) world0) =
              Ok (Json200 (mkAnalyzeBody demo_id 11 "yt-dlp-captions" "analysis")))
    by (vm_compute; reflexivity).
  split; [exact H|].
  exact (proj1 transcriptSource_values alt_env (Some demo_url) world0 _ H).
Defined.

(** counterexample to C9 as stated: a yt-dlp success is tagged
    ["yt-dlp-captions"], which is not among the five listed values *)
Lemma ytdlp_source_tag_counterexample :
  exists b, fst (AnalyzeYtDlp.POST alt_env (Some demo_url) world0) = Ok (Json200 b)
    /\ ~ In (transcriptSource b)
         ["captions"; "fallback-api"; "subtitle-download"; "audio-transcription"; "audio-upload"].
Proof.
  eexists; split; [vm_compute; reflexivity|].
  simpl; intuition discriminate.
Qed.

(** * Further properties of the routes *)

(** ** [extractVideoId] on the three URL forms *)

Lemma strip_prefix_app (p x : string) : strip_prefix p (p ++ x)%string = Some x.
Proof. induction p as [|a p IH]; simpl; [reflexivity|now rewrite Ascii.eqb_refl]. Qed.

Lemma take_id_app (vid rest : string) :
  all_chars (fun c => negb (is_id_delim c)) vid = true ->
  match rest with EmptyString => True | String c _ => is_id_delim c = true end ->
  take_id (vid ++ rest)%string = vid.
Proof.
  induction vid as [|c v IH]; intros Hv Hr; simpl in *.
  - destruct rest as [|c r]; simpl; [reflexivity|now rewrite Hr].
  - apply andb_prop in Hv as [Hc Hv]; apply negb_true_iff in Hc.
    rewrite Hc, IH; auto.
Qed.

(** every URL alternative starts with ['y'], so no match starts inside a
    prefix without ['y'] *)
Lemma match_url_pattern_skip (pre s : string) :
  all_chars (fun c => negb (Ascii.eqb c "y"%char)) pre = true ->
  match_url_pattern (pre ++ s)%string = match_url_pattern s.
Proof.
  induction pre as [|c r IH]; intros H; [reflexivity|].
  simpl in H; apply andb_prop in H as [Hc Hr]; apply negb_true_iff in Hc.
  change ((String c r ++ s)%string) with (String c (r ++ s)%string).
  rewrite match_url_pattern_eq, match_alternatives_none.
  - exact (IH Hr).
  - intros p Hp; simpl in Hp; destruct Hp as [<-|[<-|[<-|[]]]]; cbn -[Ascii.eqb];
      rewrite Ascii.eqb_sym, Hc; reflexivity.
Qed.

(** X1: the watch, short-link and embed forms of a URL give the same
    identifier: after a scheme and host prefix without ['y'], any of the
    three URL alternatives followed by a non-empty identifier free of
    [&], newline, [?] and [#], and then nothing or one of those delimiters
    (for instance further query parameters), yields that identifier. *)
Theorem extractVideoId_url_forms (pre alt vid rest : string) :
  all_chars (fun c => negb (Ascii.eqb c "y"%char)) pre = true ->
  In alt url_alternatives ->
  vid <> EmptyString ->
  all_chars (fun c => negb (is_id_delim c)) vid = true ->
  match rest with EmptyString => True | String c _ => is_id_delim c = true end ->
  extractVideoId (pre ++ alt ++ vid ++ rest)%string = Some vid.
Proof.
  intros Hpre Halt Hne Hv Hr.
  unfold extractVideoId; rewrite match_url_pattern_skip by exact Hpre.
  rewrite match_url_pattern_eq.
  destruct vid as [|c v]; [contradiction|].
  pose proof Hv as Hv'; simpl in Hv'; apply andb_prop in Hv' as [Hc Hv'];
    apply negb_true_iff in Hc.
  assert (Hid : take_id (String c v ++ rest)%string = String c v)
    by (apply take_id_app; assumption).
  simpl in Hid; rewrite Hc in Hid.
  simpl in Halt; destruct Halt as [<-|[<-|[<-|[]]]]; simpl; rewrite Hc, Hid; reflexivity.
Qed.

Lemma extractVideoId_url_forms_witness :
  extractVideoId ("https://www." ++ "youtube.com/watch?v=" ++ demo_id ++ "&t=42")%string
  = Some demo_id.
Proof.
  apply extractVideoId_url_forms.
  - reflexivity.
  - simpl; left; reflexivity.
  - discriminate.
  - reflexivity.
  - reflexivity.
Defined.

(** ** Truncation *)

Lemma substring_prefix (n : nat) (s : string) :
  (n <= String.length s)%nat -> exists rest, s = (substring 0 n s ++ rest)%string.
Proof.
  revert s; induction n as [|n IH]; intros s H.
  - exists s; destruct s; reflexivity.
  - destruct s as [|c r]; simpl in H; [lia|].
    destruct (IH r) as [rest Hr]; [lia|].
    exists rest; simpl; f_equal; exact Hr.
Qed.

(** X2: a transcript over the cap is cut to a prefix of exactly
    [maxLength] characters of the original, followed by the marker. *)
Theorem truncateTranscript_cut (t : string) :
  (maxLength < String.length t)%nat ->
  exists p rest, t = (p ++ rest)%string /\ String.length p = maxLength
    /\ truncateTranscript t = (p ++ "... [truncated]")%string.
Proof.
  intros H; unfold truncateTranscript.
  rewrite (proj2 (Nat.ltb_lt _ _) H).
  destruct (substring_prefix maxLength t) as [rest Hr]; [lia|].
  exists (substring 0 maxLength t), rest; split; [exact Hr|split; [|reflexivity]].
  apply substring_0_length; lia.
Qed.

Lemma truncateTranscript_cut_witness :
  exists p rest, long_transcript = (p ++ rest)%string /\ String.length p = maxLength
    /\ truncateTranscript long_transcript = (p ++ "... [truncated]")%string.
Proof.
  apply truncateTranscript_cut; apply Nat.ltb_lt; vm_compute; reflexivity.
Defined.

(** X3: the text forwarded to the model is never longer than
    [maxLength] plus the 15 characters of the marker. *)
Theorem truncateTranscript_length (t : string) :
  (String.length (truncateTranscript t) <= maxLength + 15)%nat.
Proof.
  unfold truncateTranscript.
  destruct (maxLength <? String.length t)%nat eqn:H.
  - rewrite length_app, substring_0_length; [reflexivity|].
    apply Nat.ltb_lt in H; lia.
  - apply Nat.ltb_ge in H; lia.
Qed.

(** ** [/api/analyze]: requests answered before any external call *)

(** X4: a missing or empty [videoUrl] is answered 400 ["Video URL is
    required"] by both versions, with the world (files and call log)
    unchanged. *)
Theorem analyze_url_required (E : env) (req : option string) (w : world) :
  req = None \/ req = Some EmptyString ->
  AnalyzeYtDlp.POST E req w = (Ok (bad_request "Video URL is required" None None), w)
  /\ AnalyzeAssembly.POST E req w = (Ok (bad_request "Video URL is required" None None), w).
Proof. intros [-> | ->]; split; reflexivity. Qed.

Lemma analyze_url_required_witness :
  AnalyzeYtDlp.POST blank_env (Some EmptyString) world0
    = (Ok (bad_request "Video URL is required" None None), world0)
  /\ AnalyzeAssembly.POST blank_env (Some EmptyString) world0
    = (Ok (bad_request "Video URL is required" None None), world0).
Proof. apply analyze_url_required; right; reflexivity. Defined.

(** X5: a non-empty [videoUrl] from which no identifier can be extracted
    is answered 400 ["Invalid YouTube URL"] by both versions, with the
    world unchanged. *)
Theorem analyze_invalid_url (E : env) (url : string) (w : world) :
  url <> EmptyString -> extractVideoId url = None ->
  AnalyzeYtDlp.POST E (Some url) w = (Ok (bad_request "Invalid YouTube URL" None None), w)
  /\ AnalyzeAssembly.POST E (Some url) w = (Ok (bad_request "Invalid YouTube URL" None None), w).
Proof.
  intros Hne Hext; destruct url as [|c r]; [contradiction|].
  split; [cbv beta iota delta [AnalyzeYtDlp.POST] | cbv beta iota delta [AnalyzeAssembly.POST]];
    rewrite Hext; reflexivity.
Qed.

Lemma analyze_invalid_url_witness :
  AnalyzeYtDlp.POST blank_env (Some "https://vimeo.com/76979871") world0
    = (Ok (bad_request "Invalid YouTube URL" None None), world0)
  /\ AnalyzeAssembly.POST blank_env (Some "https://vimeo.com/76979871") world0
    = (Ok (bad_request "Invalid YouTube URL" None None), world0).
Proof. apply analyze_invalid_url; [discriminate | vm_compute; reflexivity]. Defined.

(** ** [/api/analyze]: the captions path *)

(** X6: when the captions strategy yields a non-blank text and the model
    answers, both versions answer 200 with the extracted identifier, the
    untruncated length and source ["captions"], after exactly two external
    calls (captions, model), whatever the AssemblyAI key and yt-dlp. *)
Theorem analyze_captions_success (E : env) (url vid : string) (segs : list string)
    (a : string) (w : world) :
  extractVideoId url = Some vid ->
  captions_of E vid = Ok segs ->
  is_blank (join " " segs) = false ->
  llm_of E (truncateTranscript (join " " segs)) = Some a ->
  let out := (Ok (Json200 (mkAnalyzeBody vid (String.length (join " " segs)) "captions" a)),
              mkWorld (fs w) (calls w ++ [CallCaptions vid;
                                          CallLLM (truncateTranscript (join " " segs))])) in
  AnalyzeYtDlp.POST E (Some url) w = out /\ AnalyzeAssembly.POST E (Some url) w = out.
Proof.
  intros Hext Hcap Hnb Hllm out.
  rewrite (ytdlp_post_captions_ok E url vid segs w Hext Hcap Hnb),
          (assembly_post_captions_ok E url vid segs w Hext Hcap Hnb),
          analyze_and_respond_eq, Hllm.
  simpl; rewrite <- app_assoc; split; reflexivity.
Qed.

Lemma analyze_captions_success_witness :
  AnalyzeYtDlp.POST hello_env (Some demo_url) world0
    = (Ok (Json200 (mkAnalyzeBody demo_id 11 "captions" "analysis")),
       mkWorld [] [CallCaptions demo_id; CallLLM "Hello world"])
  /\ AnalyzeAssembly.POST hello_env (Some demo_url) world0
    = (Ok (Json200 (mkAnalyzeBody demo_id 11 "captions" "analysis")),
       mkWorld [] [CallCaptions demo_id; CallLLM "Hello world"]).
Proof.
  exact (analyze_captions_success hello_env demo_url demo_id ["Hello"; "world"] "analysis"
           world0 ltac:(vm_compute; reflexivity) ltac:(reflexivity) ltac:(vm_compute; reflexivity)
           ltac:(reflexivity)).
Defined.

(** X7: a failure of the model call is not reported as a transcript
    problem: with captions available, both versions answer 500 ["An error
    occurred processing the video"], after the captions and model calls
    only. *)
Theorem analyze_model_failure (E : env) (url vid : string) (segs : list string) (w : world) :
  extractVideoId url = Some vid ->
  captions_of E vid = Ok segs ->
  is_blank (join " " segs) = false ->
  llm_of E (truncateTranscript (join " " segs)) = None ->
  let out := (Ok (internal_error "An error occurred processing the video"),
              mkWorld (fs w) (calls w ++ [CallCaptions vid;
                                          CallLLM (truncateTranscript (join " " segs))])) in
  AnalyzeYtDlp.POST E (Some url) w = out /\ AnalyzeAssembly.POST E (Some url) w = out.
Proof.
  intros Hext Hcap Hnb Hllm out.
  rewrite (ytdlp_post_captions_ok E url vid segs w Hext Hcap Hnb),
          (assembly_post_captions_ok E url vid segs w Hext Hcap Hnb),
          analyze_and_respond_eq, Hllm.
  simpl; rewrite <- app_assoc; split; reflexivity.
Qed.

Lemma analyze_model_failure_witness :
  AnalyzeYtDlp.POST llm_down_env (Some demo_url) world0
    = (Ok (internal_error "An error occurred processing the video"),
       mkWorld [] [CallCaptions demo_id; CallLLM "Hello world"])
  /\ AnalyzeAssembly.POST llm_down_env (Some demo_url) world0
    = (Ok (internal_error "An error occurred processing the video"),
       mkWorld [] [CallCaptions demo_id; CallLLM "Hello world"]).
Proof.
  exact (analyze_model_failure llm_down_env demo_url demo_id ["Hello"; "world"] world0
           ltac:(vm_compute; reflexivity) ltac:(reflexivity) ltac:(vm_compute; reflexivity)
           ltac:(reflexivity)).
Defined.

(** ** [fetchWithYtDlp] *)

Lemma fs_remove_absent (p : string) (f : filesystem) :
  fs_lookup p f = None -> fs_remove p f = f.
Proof.
  induction f as [|[q c] rest IH]; simpl; [reflexivity|].
  destruct (String.eqb p q); [discriminate|].
  intros H; simpl; f_equal; exact (IH H).
Qed.

(** the whole run: yt-dlp, then the [.en.srt] file or else the [.srt]
    file, then the parse; the cleanup leaves yt-dlp's files minus the
    [.en.srt] one *)
Lemma fetchWithYtDlp_eq (E : env) (vid : string) (w : world) :
  let tempFile := AnalyzeYtDlp.temp_file E vid in
  let srtFile := (tempFile ++ ".en.srt")%string in
  let altFile := (tempFile ++ ".srt")%string in
  let cmd := AnalyzeYtDlp.ytdlp_command tempFile vid in
  let f := snd (exec_of E cmd (fs w)) in
  let parsed := fun c => if is_blank (parseSrtToText c)
                         then Thrown (JsError "Empty transcript from yt-dlp")
                         else Ok (parseSrtToText c) in
  AnalyzeYtDlp.fetchWithYtDlp E vid w =
  (match fst (exec_of E cmd (fs w)) with
   | Thrown e => Thrown e
   | Ok _ =>
       match fs_lookup srtFile f with
       | Some c => parsed c
       | None =>
           match fs_lookup altFile f with
           | Some c => parsed c
           | None => Thrown (JsError ("ENOENT: no such file or directory, open '"
                                      ++ altFile ++ "'"))
           end
       end
   end,
   mkWorld (fs_remove srtFile f) (calls w ++ [CallExec cmd])).
Proof.
  intros tempFile srtFile altFile cmd f parsed.
  unfold AnalyzeYtDlp.fetchWithYtDlp, try_finally, execAsync, bind, log_call,
    try_catch, readFile, unlink, ret, throw.
  fold tempFile srtFile altFile cmd; simpl.
  subst f; destruct (exec_of E cmd (fs w)) as [[[]|e] f]; simpl;
    destruct (fs_lookup srtFile f) as [c|] eqn:Hs; simpl;
    try (destruct (fs_lookup altFile f) as [c|]; simpl);
    subst parsed; simpl;
    try (destruct (is_blank (parseSrtToText c)); simpl);
    rewrite ?Hs; simpl; try rewrite (fs_remove_absent _ _ Hs); reflexivity.
Qed.

(** X8: when yt-dlp itself fails, [fetchWithYtDlp] rethrows its error
    unchanged; the [.en.srt] name is still cleaned up, and yt-dlp is the
    only external call. *)
Theorem fetchWithYtDlp_exec_error (E : env) (vid : string) (w : world) (e : exn)
    (f : filesystem) :
  let tempFile := AnalyzeYtDlp.temp_file E vid in
  let cmd := AnalyzeYtDlp.ytdlp_command tempFile vid in
  exec_of E cmd (fs w) = (Thrown e, f) ->
  AnalyzeYtDlp.fetchWithYtDlp E vid w
  = (Thrown e, mkWorld (fs_remove (tempFile ++ ".en.srt")%string f) (calls w ++ [CallExec cmd])).
Proof.
  intros tempFile cmd H.
  rewrite fetchWithYtDlp_eq; fold tempFile cmd; rewrite H; reflexivity.
Qed.

Lemma fetchWithYtDlp_exec_error_witness :
  AnalyzeYtDlp.fetchWithYtDlp blank_env demo_id world0
  = (Thrown (JsError "Command failed: yt-dlp"),
     mkWorld [] [CallExec (AnalyzeYtDlp.ytdlp_command (AnalyzeYtDlp.temp_file blank_env demo_id)
                             demo_id)]).
Proof. apply (fetchWithYtDlp_exec_error blank_env demo_id world0 _ []); reflexivity. Defined.

(** X9: when yt-dlp wrote the [.en.srt] file and its parsed text is not
    blank, that text is the result, whatever the [.srt] file holds. *)
Theorem fetchWithYtDlp_prefers_en_srt (E : env) (vid : string) (w : world)
    (f : filesystem) (content : string) :
  let tempFile := AnalyzeYtDlp.temp_file E vid in
  exec_of E (AnalyzeYtDlp.ytdlp_command tempFile vid) (fs w) = (Ok tt, f) ->
  fs_lookup (tempFile ++ ".en.srt")%string f = Some content ->
  is_blank (parseSrtToText content) = false ->
  fst (AnalyzeYtDlp.fetchWithYtDlp E vid w) = Ok (parseSrtToText content).
Proof.
  intros tempFile Hx Hl Hb.
  rewrite fetchWithYtDlp_eq; fold tempFile; rewrite Hx; simpl; rewrite Hl, Hb; reflexivity.
Qed.

Lemma fetchWithYtDlp_prefers_en_srt_witness :
  fst (AnalyzeYtDlp.fetchWithYtDlp
         (ytdlp_env (exec_writes [(demo_alt_srt, cue_headers_srt); (demo_en_srt, demo_srt)]))
         demo_id world0)
  = Ok "Hello there".
Proof.
  exact (fetchWithYtDlp_prefers_en_srt
           (ytdlp_env (exec_writes [(demo_alt_srt, cue_headers_srt); (demo_en_srt, demo_srt)]))
           demo_id world0 _ demo_srt eq_refl ltac:(vm_compute; reflexivity)
           ltac:(vm_compute; reflexivity)).
Defined.

(** X10: when yt-dlp succeeds but wrote neither subtitle file, the error
    is the failed read of the [.srt] name. *)
Theorem fetchWithYtDlp_no_subtitles (E : env) (vid : string) (w : world) (f : filesystem) :
  let tempFile := AnalyzeYtDlp.temp_file E vid in
  exec_of E (AnalyzeYtDlp.ytdlp_command tempFile vid) (fs w) = (Ok tt, f) ->
  fs_lookup (tempFile ++ ".en.srt")%string f = None ->
  fs_lookup (tempFile ++ ".srt")%string f = None ->
  fst (AnalyzeYtDlp.fetchWithYtDlp E vid w)
  = Thrown (JsError ("ENOENT: no such file or directory, open '"
                     ++ (tempFile ++ ".srt") ++ "'")%string).
Proof.
  intros tempFile Hx Hl Ha.
  rewrite fetchWithYtDlp_eq; fold tempFile; rewrite Hx; simpl; rewrite Hl, Ha; reflexivity.
Qed.

Lemma fetchWithYtDlp_no_subtitles_witness :
  fst (AnalyzeYtDlp.fetchWithYtDlp (ytdlp_env (exec_writes [])) demo_id world0)
  = Thrown (JsError ("ENOENT: no such file or directory, open '" ++ demo_alt_srt ++ "'")%string).
Proof.
  exact (fetchWithYtDlp_no_subtitles (ytdlp_env (exec_writes [])) demo_id world0 []
           eq_refl eq_refl eq_refl).
Defined.

(** X11: the only effects of [fetchWithYtDlp] besides yt-dlp's own are
    the removal of the [.en.srt] name (no other file is removed, the
    [.srt] file included) and the single logged yt-dlp command. *)
Theorem fetchWithYtDlp_effects (E : env) (vid : string) (w : world) :
  let tempFile := AnalyzeYtDlp.temp_file E vid in
  let cmd := AnalyzeYtDlp.ytdlp_command tempFile vid in
  snd (AnalyzeYtDlp.fetchWithYtDlp E vid w)
  = mkWorld (fs_remove (tempFile ++ ".en.srt")%string (snd (exec_of E cmd (fs w))))
            (calls w ++ [CallExec cmd]).
Proof. intros tempFile cmd; rewrite fetchWithYtDlp_eq; reflexivity. Qed.

(** ** [parseSrtToText] on headers only *)

Lemma string_app_assoc (a b c : string) : ((a ++ b) ++ c)%string = (a ++ b ++ c)%string.
Proof. induction a as [|x a IH]; simpl; [reflexivity|now rewrite IH]. Qed.

Lemma split_nl_acc_app (cur s t : string) :
  no_newline s = true ->
  split_nl_acc cur (s ++ String "010" t)%string = (cur ++ s)%string :: split_nl_acc EmptyString t.
Proof.
  unfold no_newline; revert cur; induction s as [|c r IH]; intros cur H; simpl in *.
  - now rewrite string_app_nil_r.
  - apply andb_prop in H as [Hc Hr]; apply negb_true_iff in Hc; rewrite Hc.
    rewrite IH by exact Hr; now rewrite string_app_assoc.
Qed.

(** [split('\n')] undoes [join('\n')] on non-empty lists of lines without
    a newline *)
Lemma split_nl_join (l : string) (lines : list string) :
  forallb no_newline (l :: lines) = true ->
  split_nl (join (String "010" EmptyString) (l :: lines)) = l :: lines.
Proof.
  revert l; induction lines as [|l' rest IH]; intros l H; simpl in H;
    apply andb_prop in H as [Hl Hrest].
  - unfold split_nl; simpl; rewrite split_nl_acc_no_nl by exact Hl; reflexivity.
  - change (join (String "010" EmptyString) (l :: l' :: rest))
      with (l ++ String "010" EmptyString ++ join (String "010" EmptyString) (l' :: rest))%string.
    unfold split_nl; simpl (String "010" EmptyString ++ _)%string.
    rewrite split_nl_acc_app by exact Hl; f_equal.
    exact (IH l' Hrest).
Qed.

Lemma srt_text_lines_headers (lines : list string) :
  forallb is_srt_header lines = true -> srt_text_lines lines = [].
Proof.
  induction lines as [|l rest IH]; intros H; simpl in *; [reflexivity|].
  apply andb_prop in H as [Hl Hr]; unfold is_srt_header in Hl.
  destruct (String.eqb (trim l) ""); [exact (IH Hr)|].
  destruct (is_sequence_number (trim l)); [exact (IH Hr)|].
  simpl in Hl; rewrite Hl; exact (IH Hr).
Qed.

Lemma parseSrtToText_headers (lines : list string) :
  forallb no_newline lines = true -> forallb is_srt_header lines = true ->
  parseSrtToText (join (String "010" EmptyString) lines) = EmptyString.
Proof.
  intros Hn Hh; unfold parseSrtToText.
  destruct lines as [|l rest]; [reflexivity|].
  rewrite split_nl_join, srt_text_lines_headers by assumption; reflexivity.
Qed.

(** X12: an SRT file made only of sequence numbers, timestamp lines and
    blank lines parses to the empty string, and [fetchWithYtDlp] then
    fails with ["Empty transcript from yt-dlp"] rather than returning it,
    whether the file was read under the [.en.srt] name or, that name being
    absent, under the [.srt] fallback name. *)
Theorem fetchWithYtDlp_headers_only (E : env) (vid : string) (w : world)
    (f : filesystem) (lines : list string) :
  let tempFile := AnalyzeYtDlp.temp_file E vid in
  let content := join (String "010" EmptyString) lines in
  forallb no_newline lines = true ->
  forallb is_srt_header lines = true ->
  exec_of E (AnalyzeYtDlp.ytdlp_command tempFile vid) (fs w) = (Ok tt, f) ->
  fs_lookup (tempFile ++ ".en.srt")%string f = Some content
  \/ (fs_lookup (tempFile ++ ".en.srt")%string f = None
      /\ fs_lookup (tempFile ++ ".srt")%string f = Some content) ->
  parseSrtToText content = EmptyString
  /\ fst (AnalyzeYtDlp.fetchWithYtDlp E vid w) = Thrown (JsError "Empty transcript from yt-dlp").
Proof.
  intros tempFile content Hn Hh Hx Hl.
  pose proof (parseSrtToText_headers lines Hn Hh) as Hp; fold content in Hp.
  split; [exact Hp|].
  rewrite fetchWithYtDlp_eq; fold tempFile; rewrite Hx; simpl.
  destruct Hl as [Hl | [Hl Ha]]; rewrite Hl; [|rewrite Ha]; rewrite Hp; reflexivity.
Qed.

Lemma fetchWithYtDlp_headers_only_witness :
  (parseSrtToText cue_headers_srt = EmptyString
   /\ fst (AnalyzeYtDlp.fetchWithYtDlp (ytdlp_env (exec_writes [(demo_en_srt, cue_headers_srt)]))
            demo_id world0)
      = Thrown (JsError "Empty transcript from yt-dlp"))
  /\ (parseSrtToText cue_headers_srt = EmptyString
      /\ fst (AnalyzeYtDlp.fetchWithYtDlp (ytdlp_env (exec_writes [(demo_alt_srt, cue_headers_srt)]))
               demo_id world0)
         = Thrown (JsError "Empty transcript from yt-dlp")).
Proof.
  split.
  - exact (fetchWithYtDlp_headers_only (ytdlp_env (exec_writes [(demo_en_srt, cue_headers_srt)]))
             demo_id world0 _ cue_headers ltac:(vm_compute; reflexivity)
             ltac:(vm_compute; reflexivity) eq_refl
             ltac:(left; vm_compute; reflexivity)).
  - exact (fetchWithYtDlp_headers_only (ytdlp_env (exec_writes [(demo_alt_srt, cue_headers_srt)]))
             demo_id world0 _ cue_headers ltac:(vm_compute; reflexivity)
             ltac:(vm_compute; reflexivity) eq_refl
             ltac:(right; split; vm_compute; reflexivity)).
Defined.

(** ** Which services each route can reach *)

Section LogsOnly.
Variable P : call -> Prop.

Lemma logs_only_ret {A} (a : A) : logs_only P (ret a).
Proof. intros w; exists []; split; [now rewrite app_nil_r|constructor]. Qed.

Lemma logs_only_throw {A} (e : exn) : logs_only (A := A) P (throw e).
Proof. intros w; exists []; split; [now rewrite app_nil_r|constructor]. Qed.

Lemma logs_only_log_call (c : call) : P c -> logs_only P (log_call c).
Proof. intros Hc w; exists [c]; split; [reflexivity|now repeat constructor]. Qed.

Lemma logs_only_bind {A B} (m : M A) (k : A -> M B) :
  logs_only P m -> (forall a, logs_only P (k a)) -> logs_only P (bind m k).
Proof.
  intros Hm Hk w; unfold bind.
  destruct (Hm w) as [l1 [H1 F1]].
  destruct (m w) as [[a|e] w1]; simpl in *.
  - destruct (Hk a w1) as [l2 [H2 F2]]; exists (l1 ++ l2).
    split; [now rewrite H2, H1, app_assoc|now apply Forall_app].
  - now exists l1.
Qed.

Lemma logs_only_try_catch {A} (m : M A) (h : exn -> M A) :
  logs_only P m -> (forall e, logs_only P (h e)) -> logs_only P (try_catch m h).
Proof.
  intros Hm Hh w; unfold try_catch.
  destruct (Hm w) as [l1 [H1 F1]].
  destruct (m w) as [[a|e] w1]; simpl in *.
  - now exists l1.
  - destruct (Hh e w1) as [l2 [H2 F2]]; exists (l1 ++ l2).
    split; [now rewrite H2, H1, app_assoc|now apply Forall_app].
Qed.

Lemma logs_only_try_finally {A} (m : M A) (fin : M unit) :
  logs_only P m -> logs_only P fin -> logs_only P (try_finally m fin).
Proof.
  intros Hm Hf w; unfold try_finally.
  destruct (Hm w) as [l1 [H1 F1]].
  destruct (m w) as [r w1]; simpl in *.
  destruct (Hf w1) as [l2 [H2 F2]].
  destruct (fin w1) as [[u|e] w2]; simpl in *;
    exists (l1 ++ l2); (split; [now rewrite H2, H1, app_assoc|now apply Forall_app]).
Qed.

Lemma logs_only_state {A} (f : world -> outcome A * world) :
  (forall w, calls (snd (f w)) = calls w) -> logs_only P f.
Proof. intros H w; exists []; split; [now rewrite H, app_nil_r|constructor]. Qed.

End LogsOnly.

(** split a [logs_only] goal along the structure of a program; steps that
    touch only the files are closed by computation *)
Ltac logs_only_split :=
  repeat first
    [ progress intros
    | apply logs_only_bind
    | apply logs_only_try_catch
    | apply logs_only_try_finally
    | apply logs_only_ret
    | apply logs_only_throw
    | apply logs_only_log_call; exact I
    | apply logs_only_state; intros ?w;
      first [ reflexivity
            | match goal with
              | |- context [match ?x with _ => _ end] => destruct x; reflexivity
              end ]
    | match goal with
      | |- logs_only _ (if ?b then _ else _) => destruct b
      | |- logs_only _ (match ?x with _ => _ end) => destruct x
      end ].

(** X13: the yt-dlp version of [/api/analyze] never calls AssemblyAI
    (neither transcription nor upload), whatever the request and the
    services' answers. *)
Theorem ytdlp_route_never_assembly (E : env) (req : option string) :
  logs_only not_assembly (AnalyzeYtDlp.POST E req).
Proof.
  unfold AnalyzeYtDlp.POST, AnalyzeYtDlp.fetchWithYtDlp, fetchTranscript, execAsync,
    analyze_and_respond, analyzeWithAI, readFile, unlink.
  cbv zeta; logs_only_split.
Qed.

(** X14: neither the AssemblyAI version of [/api/analyze] nor
    [/api/transcribe-audio] ever runs a shell command. *)
Theorem assembly_routes_never_exec (E : env) (req : option string)
    (audio : option TranscribeAudio.audio_file) :
  logs_only not_exec (AnalyzeAssembly.POST E req)
  /\ logs_only not_exec (TranscribeAudio.POST E audio).
Proof.
  split;
    unfold AnalyzeAssembly.POST, TranscribeAudio.POST, AnalyzeAssembly.transcribeWithAssemblyAI,
      fetchTranscript, assembly_transcribe, assembly_upload, check_assembly_transcript,
      analyze_and_respond, analyzeWithAI;
    cbv zeta; logs_only_split.
Qed.

(** ** [/api/transcribe-audio] *)

(** X15: without an AssemblyAI key, [/api/transcribe-audio] answers 500
    ["AssemblyAI API key is not configured."] before looking at the
    upload, with the world unchanged. *)
Theorem audio_no_key (E : env) (audio : option TranscribeAudio.audio_file) (w : world) :
  truthy (assemblyai_key E) = false ->
  TranscribeAudio.POST E audio w
  = (Ok (TranscribeAudio.JsonError 500
           (mkErrorBody "AssemblyAI API key is not configured." None None)), w).
Proof. intros Hk; cbv beta iota zeta delta [TranscribeAudio.POST]; rewrite Hk; reflexivity. Qed.

Lemma audio_no_key_witness :
  TranscribeAudio.POST blank_env (Some demo_audio) world0
  = (Ok (TranscribeAudio.JsonError 500
           (mkErrorBody "AssemblyAI API key is not configured." None None)), world0).
Proof. apply audio_no_key; reflexivity. Defined.

(** X16: with a key, a missing file and a file failing the type or size
    check are answered 400 with the world unchanged: no upload is made. *)
Theorem audio_rejected (E : env) (w : world) :
  truthy (assemblyai_key E) = true ->
  TranscribeAudio.POST E None w
  = (Ok (TranscribeAudio.JsonError 400 (mkErrorBody "Audio file is required" None None)), w)
  /\ (forall f, audio_accepted f = false ->
      exists msg, TranscribeAudio.POST E (Some f) w
                  = (Ok (TranscribeAudio.JsonError 400 (mkErrorBody msg None None)), w)).
Proof.
  intros Hk; split.
  - cbv beta iota zeta delta [TranscribeAudio.POST]; rewrite Hk; reflexivity.
  - intros f Hacc; unfold audio_accepted in Hacc.
    cbv beta iota zeta delta [TranscribeAudio.POST]; rewrite Hk; cbn [negb].
    destruct (existsb (String.eqb (TranscribeAudio.type f)) TranscribeAudio.validTypes),
      (TranscribeAudio.has_audio_extension (TranscribeAudio.name f)); simpl in *;
      try (eexists; reflexivity);
      (rewrite (proj2 (N.ltb_lt _ _) (proj1 (N.leb_gt _ _) Hacc)); eexists; reflexivity).
Qed.

Lemma audio_rejected_witness :
  TranscribeAudio.POST (audio_env (Thrown NonErrorThrown)) None world0
  = (Ok (TranscribeAudio.JsonError 400 (mkErrorBody "Audio file is required" None None)), world0)
  /\ (forall f, audio_accepted f = false ->
      exists msg, TranscribeAudio.POST (audio_env (Thrown NonErrorThrown)) (Some f) world0
                  = (Ok (TranscribeAudio.JsonError 400 (mkErrorBody msg None None)), world0)).
Proof. apply audio_rejected; reflexivity. Defined.

(** X17: with a key, an accepted file (listed MIME type or audio extension
    in any case, and at most 500 MB, the limit included) is uploaded:
    the upload of its name is the first external call. *)
Theorem audio_accepted_uploads_first (E : env) (f : TranscribeAudio.audio_file) (w : world) :
  truthy (assemblyai_key E) = true ->
  audio_accepted f = true ->
  exists l, calls (snd (TranscribeAudio.POST E (Some f) w))
            = calls w ++ CallUpload (TranscribeAudio.name f) :: l.
Proof.
  intros Hk Hacc; destruct (audio_checks_pass _ Hacc) as [H1 H2].
  cbv beta iota zeta delta [TranscribeAudio.POST]; rewrite Hk; cbn [negb]; rewrite H1, H2.
  revert w; apply logs_first_try_catch; [|appends_split].
  apply logs_first_bind.
  - unfold assembly_upload; apply logs_first_log_call; appends_split.
  - intros url; apply appends_bind; [unfold assembly_transcribe; appends_split|].
    intros t; apply appends_bind; [apply appends_check_assembly_transcript|].
    intros text; apply appends_bind; [apply appends_analyzeWithAI|appends_split].
Qed.

Lemma audio_accepted_uploads_first_witness :
  exists l, calls (snd (TranscribeAudio.POST (audio_env (Thrown NonErrorThrown))
                          (Some demo_audio) world0))
            = calls world0 ++ CallUpload "Talk.MP3" :: l.
Proof.
  exact (audio_accepted_uploads_first (audio_env (Thrown NonErrorThrown)) demo_audio world0
           eq_refl ltac:(vm_compute; reflexivity)).
Defined.

(** X18: when AssemblyAI reports the status ["error"], the upload route
    answers 500 with AssemblyAI's error text (or ["Transcription failed"]
    when it gives none) and never calls the model. *)
Theorem audio_transcription_error (E : env) (f : TranscribeAudio.audio_file) (w : world)
    (url : string) (t : assembly_transcript) :
  truthy (assemblyai_key E) = true ->
  audio_accepted f = true ->
  upload_of E (TranscribeAudio.name f) = Ok url ->
  assembly_of E url = Ok t ->
  at_status t = "error" ->
  TranscribeAudio.POST E (Some f) w
  = (Ok (TranscribeAudio.JsonError 500
           (mkErrorBody (or_default (at_error t) "Transcription failed") None None)),
     mkWorld (fs w) (calls w ++ [CallUpload (TranscribeAudio.name f); CallAssembly url])).
Proof.
  intros Hk Hacc Hup Hasm Hst.
  run_accepted_audio Hk Hacc.
  rewrite Hup; cbn beta iota; rewrite Hasm; cbn beta iota.
  rewrite Hst; simpl; rewrite <- app_assoc; reflexivity.
Qed.

Lemma audio_transcription_error_witness :
  TranscribeAudio.POST
    (audio_env (Ok (mkAssemblyTranscript "error" (Some "Audio duration is too short") None)))
    (Some demo_audio) world0
  = (Ok (TranscribeAudio.JsonError 500
           (mkErrorBody "Audio duration is too short" None None)),
     mkWorld [] [CallUpload "Talk.MP3"; CallAssembly "https://cdn/upload"]).
Proof.
  exact (audio_transcription_error
           (audio_env (Ok (mkAssemblyTranscript "error" (Some "Audio duration is too short") None)))
           demo_audio world0 "https://cdn/upload" _ eq_refl ltac:(vm_compute; reflexivity)
           eq_refl eq_refl eq_refl).
Defined.

(** X19: when AssemblyAI reports another status but no text (missing or
    empty), the upload route answers 500 ["No transcript text returned"]
    and never calls the model. *)
Theorem audio_no_text (E : env) (f : TranscribeAudio.audio_file) (w : world)
    (url : string) (t : assembly_transcript) :
  truthy (assemblyai_key E) = true ->
  audio_accepted f = true ->
  upload_of E (TranscribeAudio.name f) = Ok url ->
  assembly_of E url = Ok t ->
  String.eqb (at_status t) "error" = false ->
  at_text t = None \/ at_text t = Some EmptyString ->
  TranscribeAudio.POST E (Some f) w
  = (Ok (TranscribeAudio.JsonError 500 (mkErrorBody "No transcript text returned" None None)),
     mkWorld (fs w) (calls w ++ [CallUpload (TranscribeAudio.name f); CallAssembly url])).
Proof.
  intros Hk Hacc Hup Hasm Hst Htx.
  run_accepted_audio Hk Hacc.
  rewrite Hup; cbn beta iota; rewrite Hasm; cbn beta iota.
  rewrite Hst; destruct Htx as [-> | ->]; simpl; rewrite <- app_assoc; reflexivity.
Qed.

Lemma audio_no_text_witness :
  TranscribeAudio.POST (audio_env (Ok (mkAssemblyTranscript "completed" None (Some ""))))
    (Some demo_audio) world0
  = (Ok (TranscribeAudio.JsonError 500 (mkErrorBody "No transcript text returned" None None)),
     mkWorld [] [CallUpload "Talk.MP3"; CallAssembly "https://cdn/upload"]).
Proof.
  exact (audio_no_text (audio_env (Ok (mkAssemblyTranscript "completed" None (Some ""))))
           demo_audio world0 "https://cdn/upload" _ eq_refl ltac:(vm_compute; reflexivity)
           eq_refl eq_refl eq_refl (or_intror eq_refl)).
Defined.

(** X20: a successful upload run answers 200 with the file name, the
    length of the untruncated transcript, source ["audio-upload"] and the
    model's reply; the upload URL is what AssemblyAI transcribes, and the
    model receives the truncated transcript. *)
Theorem audio_success (E : env) (f : TranscribeAudio.audio_file) (w : world)
    (url text a : string) (t : assembly_transcript) :
  truthy (assemblyai_key E) = true ->
  audio_accepted f = true ->
  upload_of E (TranscribeAudio.name f) = Ok url ->
  assembly_of E url = Ok t ->
  String.eqb (at_status t) "error" = false ->
  at_text t = Some text ->
  text <> EmptyString ->
  llm_of E (truncateTranscript text) = Some a ->
  TranscribeAudio.POST E (Some f) w
  = (Ok (TranscribeAudio.Json200
           (TranscribeAudio.mkUploadBody (TranscribeAudio.name f) (String.length text)
              "audio-upload" a)),
     mkWorld (fs w) (calls w ++ [CallUpload (TranscribeAudio.name f); CallAssembly url;
                                 CallLLM (truncateTranscript text)])).
Proof.
  intros Hk Hacc Hup Hasm Hst Htx Hne Hllm.
  run_accepted_audio Hk Hacc.
  rewrite Hup; cbn beta iota; rewrite Hasm; cbn beta iota.
  rewrite Hst, Htx.
  destruct text as [|c r]; [contradiction|].
  cbn beta iota; rewrite Hllm; simpl; rewrite <- !app_assoc; reflexivity.
Qed.

Lemma audio_success_witness :
  TranscribeAudio.POST
    (audio_env (Ok (mkAssemblyTranscript "completed" None (Some "Hello there"))))
    (Some demo_audio) world0
  = (Ok (TranscribeAudio.Json200
           (TranscribeAudio.mkUploadBody "Talk.MP3" 11 "audio-upload" "analysis")),
     mkWorld [] [CallUpload "Talk.MP3"; CallAssembly "https://cdn/upload";
                 CallLLM "Hello there"]).
Proof.
  exact (audio_success
           (audio_env (Ok (mkAssemblyTranscript "completed" None (Some "Hello there"))))
           demo_audio world0 "https://cdn/upload" "Hello there" "analysis" _ eq_refl
           ltac:(vm_compute; reflexivity) eq_refl eq_refl eq_refl eq_refl
           ltac:(discriminate) eq_refl).
Defined.

(** X21: an exception thrown by the upload is answered 500 with its
    message when it is an [Error], and with ["An error occurred processing
    the audio"] otherwise; nothing else is called. *)
Theorem audio_upload_error (E : env) (f : TranscribeAudio.audio_file) (w : world) (e : exn) :
  truthy (assemblyai_key E) = true ->
  audio_accepted f = true ->
  upload_of E (TranscribeAudio.name f) = Thrown e ->
  TranscribeAudio.POST E (Some f) w
  = (Ok (TranscribeAudio.JsonError 500
           (mkErrorBody (match e with
                         | JsError m => m
                         | NonErrorThrown => "An error occurred processing the audio"
                         end) None None)),
     mkWorld (fs w) (calls w ++ [CallUpload (TranscribeAudio.name f)])).
Proof.
  intros Hk Hacc Hup.
  run_accepted_audio Hk Hacc.
  rewrite Hup; reflexivity.
Qed.

Lemma audio_upload_error_witness :
  TranscribeAudio.POST upload_refused_env (Some demo_audio) world0
  = (Ok (TranscribeAudio.JsonError 500 (mkErrorBody "Payload Too Large" None None)),
     mkWorld [] [CallUpload "Talk.MP3"]).
Proof.
  exact (audio_upload_error upload_refused_env demo_audio world0 _ eq_refl
           ltac:(vm_compute; reflexivity) eq_refl).
Defined.

(** ** [parseSrtToText] on well-formed cues *)

Lemma srt_text_lines_filter (lines : list string) :
  srt_text_lines lines = map trim (filter (fun l => negb (is_srt_header l)) lines).
Proof.
  induction lines as [|l rest IH]; simpl; [reflexivity|].
  unfold is_srt_header; cbv zeta.
  destruct (String.eqb (trim l) ""); simpl; [exact IH|].
  destruct (is_sequence_number (trim l)); simpl; [exact IH|].
  destruct (is_timestamp_line (trim l)); simpl; [exact IH|].
  f_equal; exact IH.
Qed.

Lemma word_no_ws (s : string) :
  all_chars plain_char s = true -> all_chars (fun c => negb (is_ws c)) s = true.
Proof.
  apply all_chars_impl; intros c; unfold plain_char; intros H; apply andb_prop in H; tauto.
Qed.

Lemma word_no_open (s : string) :
  all_chars plain_char s = true -> all_chars (fun c => negb (Ascii.eqb c "["%char)) s = true.
Proof.
  apply all_chars_impl; intros c; unfold plain_char; intros H; apply andb_prop in H; tauto.
Qed.

Lemma collapse_ws_app_word (b : bool) (s t : string) :
  all_chars (fun c => negb (is_ws c)) s = true -> s <> EmptyString ->
  collapse_ws b (s ++ t)%string = (s ++ collapse_ws false t)%string.
Proof.
  revert b; induction s as [|c r IH]; intros b H Hne; [contradiction|].
  simpl in H |- *; apply andb_prop in H as [Hc Hr]; apply negb_true_iff in Hc; rewrite Hc.
  destruct r as [|c' r']; [reflexivity|].
  rewrite IH; [reflexivity|exact Hr|discriminate].
Qed.

Lemma collapse_ws_join_words (b : bool) (words : list string) :
  Forall is_word words -> collapse_ws b (join " " words) = join " " words.
Proof.
  revert b; induction words as [|w rest IH]; intros b H; [reflexivity|].
  inversion H as [|? ? [Hw Hne] Hrest]; subst.
  destruct rest as [|w' r].
  - apply collapse_ws_no_ws, word_no_ws, Hw.
  - change (join " " (w :: w' :: r)) with (w ++ " " ++ join " " (w' :: r))%string.
    rewrite collapse_ws_app_word by (apply word_no_ws, Hw || exact Hne).
    simpl (collapse_ws false (" " ++ _)%string); rewrite IH by exact Hrest; reflexivity.
Qed.

Lemma ends_with_ws_app (a b : string) :
  b <> EmptyString -> ends_with_ws (a ++ b)%string = ends_with_ws b.
Proof.
  intros Hb; induction a as [|c a IH]; [reflexivity|].
  assert (Hab : (a ++ b)%string <> EmptyString) by (destruct a; [exact Hb|discriminate]).
  change (ends_with_ws (String c (a ++ b))%string = ends_with_ws b).
  destruct (a ++ b)%string as [|x y] eqn:E; [contradiction|].
  exact IH.
Qed.

Lemma no_ws_not_ends (s : string) :
  all_chars (fun c => negb (is_ws c)) s = true -> ends_with_ws s = false.
Proof.
  induction s as [|c r IH]; intros H; [reflexivity|].
  simpl in H; apply andb_prop in H as [Hc Hr].
  destruct r as [|c' r']; simpl; [now apply negb_true_iff|exact (IH Hr)].
Qed.

Lemma trim_start_keep (s : string) : starts_with_ws s = false -> trim_start s = s.
Proof. destruct s as [|c r]; simpl; intros H; [reflexivity|now rewrite H]. Qed.

Lemma trim_end_keep (s : string) : ends_with_ws s = false -> trim_end s = s.
Proof.
  induction s as [|c r IH]; intros H; [reflexivity|].
  destruct r as [|c' r'].
  - simpl in *; rewrite H; reflexivity.
  - change (ends_with_ws (String c' r') = false) in H.
    change (match trim_end (String c' r') with
            | EmptyString => if is_ws c then EmptyString else String c EmptyString
            | _ => String c (trim_end (String c' r'))
            end = String c (String c' r')).
    rewrite (IH H); reflexivity.
Qed.

Lemma join_words_shape (words : list string) :
  Forall is_word words ->
  starts_with_ws (join " " words) = false /\ ends_with_ws (join " " words) = false
  /\ all_chars (fun c => negb (Ascii.eqb c "["%char)) (join " " words) = true.
Proof.
  induction words as [|w rest IH]; intros H; [repeat split|].
  inversion H as [|? ? [Hw Hne] Hrest]; subst.
  destruct (IH Hrest) as [_ [He Ho]].
  assert (Hs : forall t, starts_with_ws (w ++ t)%string = false).
  { destruct w as [|c r]; [contradiction|]; intros t; simpl.
    apply word_no_ws in Hw; simpl in Hw; apply andb_prop in Hw as [Hc _].
    now apply negb_true_iff. }
  destruct rest as [|w' r].
  - split; [rewrite <- (string_app_nil_r w); apply Hs|].
    split; [apply no_ws_not_ends, word_no_ws, Hw|apply word_no_open, Hw].
  - change (join " " (w :: w' :: r)) with (w ++ " " ++ join " " (w' :: r))%string.
    split; [apply Hs|split].
    + rewrite ends_with_ws_app; [rewrite ends_with_ws_app; [exact He|]|discriminate].
      inversion Hrest as [|? ? [_ Hne'] _]; subst.
      destruct w' as [|c' r']; [contradiction|].
      destruct r; simpl; discriminate.
    + rewrite all_chars_app, (word_no_open _ Hw); exact Ho.
Qed.

(** X22: on an SRT file whose lines are headers (sequence numbers,
    timestamps, blank lines) or single words (non-empty, with no whitespace
    and no '['), [parseSrtToText] returns the words in file order,
    separated by single spaces. *)
Theorem parseSrtToText_cue_words (lines : list string) :
  forallb no_newline lines = true ->
  Forall (fun l => is_srt_header l = true \/ is_word l) lines ->
  parseSrtToText (join (String "010" EmptyString) lines)
  = join " " (filter (fun l => negb (is_srt_header l)) lines).
Proof.
  intros Hn Hl.
  set (words := filter (fun l => negb (is_srt_header l)) lines).
  assert (Hw : Forall is_word words).
  { subst words; induction Hl as [|l rest [Hh|Hw] _ IH]; simpl in *; [constructor| |].
    - rewrite Hh; simpl; apply IH; apply andb_prop in Hn; tauto.
    - destruct (is_srt_header l); simpl; [|constructor; [exact Hw|]];
        apply IH; apply andb_prop in Hn; tauto. }
  assert (Ht : map trim words = words).
  { clear -Hw; induction Hw as [|w rest [Hp _] _ IH]; [reflexivity|].
    simpl; rewrite IH; unfold trim.
    rewrite trim_start_no_ws, trim_end_no_ws by (apply word_no_ws, Hp); reflexivity. }
  destruct (join_words_shape words Hw) as [Hs [He Ho]].
  unfold parseSrtToText.
  destruct lines as [|l rest]; [reflexivity|].
  rewrite split_nl_join by exact Hn.
  rewrite srt_text_lines_filter; fold words; rewrite Ht.
  rewrite collapse_ws_join_words by exact Hw.
  rewrite strip_brackets_no_open by exact Ho.
  unfold trim; rewrite trim_start_keep by exact Hs.
  apply trim_end_keep; exact He.
Qed.

Lemma parseSrtToText_cue_words_witness :
  parseSrtToText (join (String "010" EmptyString) demo_cues) = "Hello there".
Proof.
  exact (parseSrtToText_cue_words demo_cues ltac:(vm_compute; reflexivity)
    ltac:(repeat apply Forall_cons;
          first [ apply Forall_nil
                | left; vm_compute; reflexivity
                | right; split; [vm_compute; reflexivity|discriminate] ])).
Defined.

(** ** [/api/analyze]: what a success response reports *)

Lemma analyze_and_respond_success (E : env) (vid t src : string) (w : world) (b : analyze_body) :
  fst (analyze_and_respond E vid t src w) = Ok (Json200 b) ->
  videoId b = vid /\ transcriptLength b = String.length t
  /\ llm_of E (truncateTranscript t) = Some (analysis b).
Proof.
  rewrite analyze_and_respond_eq; destruct (llm_of E _) as [a|]; simpl; [|discriminate].
  intros H; injection H as <-; repeat split.
Qed.

Lemma ytdlp_post_success_inv (E : env) (req : option string) (w : world) (b : analyze_body) :
  fst (AnalyzeYtDlp.POST E req w) = Ok (Json200 b) ->
  exists url vid t src w', req = Some url /\ extractVideoId url = Some vid
    /\ fst (analyze_and_respond E vid t src w') = Ok (Json200 b).
Proof.
  destruct req as [[|c r]|]; [intros H; discriminate H| |intros H; discriminate H].
  destruct (extractVideoId (String c r)) as [vid|] eqn:Hext.
  2:{ cbv beta iota delta [AnalyzeYtDlp.POST]; rewrite Hext; intros H; discriminate H. }
  assert (Hfail : captions_fail E vid ->
    fst (AnalyzeYtDlp.POST E (Some (String c r)) w) = Ok (Json200 b) ->
    exists url vid t src w', Some (String c r) = Some url /\ extractVideoId url = Some vid
      /\ fst (analyze_and_respond E vid t src w') = Ok (Json200 b)).
  { intros Hf; rewrite (ytdlp_post_captions_fail E _ vid w Hext Hf).
    destruct (AnalyzeYtDlp.fetchWithYtDlp E vid _) as [[t|e] w2]; [|discriminate].
    destruct (analyze_and_respond E vid t "yt-dlp-captions" w2) as [[resp|e'] w3] eqn:Ha;
      simpl; [|discriminate].
    intros H; injection H as ->.
    exists (String c r), vid, t, "yt-dlp-captions", w2; rewrite Ha; auto. }
  destruct (captions_of E vid) as [segs|e] eqn:Hcap.
  - destruct (is_blank (join " " segs)) eqn:Hb.
    + apply Hfail; unfold captions_fail; now rewrite Hcap.
    + rewrite (ytdlp_post_captions_ok E _ vid segs w Hext Hcap Hb).
      destruct (analyze_and_respond E vid _ "captions" _) as [[resp|e'] w3] eqn:Ha;
        simpl; [|discriminate].
      intros H; injection H as ->.
      eexists _, vid, _, "captions", _; rewrite Ha; auto.
  - apply Hfail; unfold captions_fail; now rewrite Hcap.
Qed.

Lemma assembly_post_success_inv (E : env) (req : option string) (w : world) (b : analyze_body) :
  fst (AnalyzeAssembly.POST E req w) = Ok (Json200 b) ->
  exists url vid t src w', req = Some url /\ extractVideoId url = Some vid
    /\ fst (analyze_and_respond E vid t src w') = Ok (Json200 b).
Proof.
  destruct req as [[|c r]|]; [intros H; discriminate H| |intros H; discriminate H].
  destruct (extractVideoId (String c r)) as [vid|] eqn:Hext.
  2:{ cbv beta iota delta [AnalyzeAssembly.POST]; rewrite Hext; intros H; discriminate H. }
  assert (Hfail : captions_fail E vid ->
    fst (AnalyzeAssembly.POST E (Some (String c r)) w) = Ok (Json200 b) ->
    exists url vid t src w', Some (String c r) = Some url /\ extractVideoId url = Some vid
      /\ fst (analyze_and_respond E vid t src w') = Ok (Json200 b)).
  { intros Hf; rewrite (assembly_post_captions_fail E _ vid w Hext Hf); simpl.
    destruct (truthy (assemblyai_key E)); simpl; [|discriminate].
    destruct (AnalyzeAssembly.transcribeWithAssemblyAI E _ _) as [[t|e] w2]; [|discriminate].
    destruct (analyze_and_respond E vid t "audio-transcription" w2) as [[resp|e'] w3] eqn:Ha;
      simpl; [|discriminate].
    intros H; injection H as ->.
    exists (String c r), vid, t, "audio-transcription", w2; rewrite Ha; auto. }
  destruct (captions_of E vid) as [segs|e] eqn:Hcap.
  - destruct (is_blank (join " " segs)) eqn:Hb.
    + apply Hfail; unfold captions_fail; now rewrite Hcap.
    + rewrite (assembly_post_captions_ok E _ vid segs w Hext Hcap Hb).
      destruct (analyze_and_respond E vid _ "captions" _) as [[resp|e'] w3] eqn:Ha;
        simpl; [|discriminate].
      intros H; injection H as ->.
      eexists _, vid, _, "captions", _; rewrite Ha; auto.
  - apply Hfail; unfold captions_fail; now rewrite Hcap.
Qed.

(** X23: in both versions of [/api/analyze], a 200 response carries the
    identifier extracted from the request URL, and its analysis is the
    model's reply to the (capped) transcript whose untruncated length it
    reports; so when the model is unavailable no 200 is ever returned. *)
Theorem analyze_success_body (E : env) (req : option string) (w : world) (b : analyze_body) :
  fst (AnalyzeYtDlp.POST E req w) = Ok (Json200 b)
  \/ fst (AnalyzeAssembly.POST E req w) = Ok (Json200 b) ->
  exists url t, req = Some url /\ extractVideoId url = Some (videoId b)
    /\ transcriptLength b = String.length t
    /\ llm_of E (truncateTranscript t) = Some (analysis b).
Proof.
  intros H.
  assert (Hinv : exists url vid t src w', req = Some url /\ extractVideoId url = Some vid
            /\ fst (analyze_and_respond E vid t src w') = Ok (Json200 b))
    by (destruct H as [H|H]; [exact (ytdlp_post_success_inv E req w b H)
                             |exact (assembly_post_success_inv E req w b H)]).
  destruct Hinv as (url & vid & t & src & w' & Hreq & Hext & Ha).
  destruct (analyze_and_respond_success E vid t src w' b Ha) as (Hv & Hl & Hm).
  exists url, t; rewrite Hv; auto.
Qed.

Lemma analyze_success_body_witness :
  exists url t, Some demo_url = Some url /\ extractVideoId url = Some demo_id
    /\ 11 = String.length t
    /\ llm_of hello_env (truncateTranscript t) = Some "analysis".
Proof.
  exact (analyze_success_body hello_env (Some demo_url) world0
           (mkAnalyzeBody demo_id 11 "captions" "analysis")
           ltac:(left; vm_compute; reflexivity)).
Defined.

(** ** [/api/analyze], AssemblyAI version: AssemblyAI's error status *)

(** X24: in the AssemblyAI version, when captions fail, a key is set and
    AssemblyAI, given the full request URL, reports the status ["error"],
    the answer is 400 with AssemblyAI's error text (or ["Transcription
    failed"]) as details, after the captions and AssemblyAI calls only. *)
Theorem assembly_route_transcription_error (E : env) (url vid : string) (w : world)
    (t : assembly_transcript) :
  extractVideoId url = Some vid ->
  captions_fail E vid ->
  truthy (assemblyai_key E) = true ->
  assembly_of E url = Ok t ->
  at_status t = "error" ->
  AnalyzeAssembly.POST E (Some url) w
  = (Ok (bad_request AnalyzeAssembly.all_failed_error None
           (Some (or_default (at_error t) "Transcription failed"))),
     mkWorld (fs w) (calls w ++ [CallCaptions vid; CallAssembly url])).
Proof.
  intros Hext Hf Hk Hasm Hst.
  rewrite (assembly_post_captions_fail E url vid w Hext Hf); cbv zeta.
  rewrite Hk; cbn [negb].
  cbv beta iota zeta delta [AnalyzeAssembly.transcribeWithAssemblyAI assembly_transcribe
    bind log_call check_assembly_transcript throw].
  rewrite Hasm; cbn beta iota; rewrite Hst; simpl; rewrite <- app_assoc; reflexivity.
Qed.

Lemma assembly_route_transcription_error_witness :
  AnalyzeAssembly.POST assembly_error_env (Some demo_url) world0
  = (Ok (bad_request AnalyzeAssembly.all_failed_error None (Some "Audio duration is too short")),
     mkWorld [] [CallCaptions demo_id; CallAssembly demo_url]).
Proof.
  exact (assembly_route_transcription_error assembly_error_env demo_url demo_id world0 _
           ltac:(vm_compute; reflexivity) I eq_refl eq_refl eq_refl).
Defined.
